(** * MetamaskInpageProvider: a shallow embedding of the provider state engine

    The development follows [src/MetamaskInpageProvider.js].  JavaScript
    values are primitives or references into a heap of objects, arrays and
    functions, so that object identity ([===] on references), in-place
    mutation of a request payload and deep comparison of account arrays are
    all expressed the way the code has them.  Methods of the provider are
    computations in a small state/trace/exception monad: the state is the
    heap together with the provider's fields, the trace records what the
    provider does to its collaborators (events emitted, log lines, requests
    handed to the RPC engine, consumer callbacks invoked), and an exception
    is a JavaScript [throw]. *)

From Stdlib Require Import ZArith String List Bool Lia.
From stdpp Require Import base option list strings gmap fin_maps.

Local Open Scope string_scope.

(** ** JavaScript values *)

Definition loc := positive.

(** Numbers are represented by integers: every operation the provider
    applies to a number ([typeof], truthiness, [===]) treats all other
    finite numbers like a non-zero integer.  [NaN] has its own constructor
    because it is falsy and not equal to itself. *)
Inductive value : Type :=
| VUndefined
| VNull
| VBool (b : bool)
| VNum (n : Z)
| VNaN
| VStr (s : string)
| VRef (l : loc).

#[global] Instance value_eq_dec : EqDecision value.
Proof. solve_decision. Defined.

(** What a reference points to.  An array has its elements; every object
    (arrays and functions included) has its own named properties, may or
    may not take new ones ([Object.preventExtensions], [Object.seal],
    [Object.freeze]), and has the properties whose value cannot be
    assigned (all of them, for a frozen object). *)
Inductive kind : Type :=
| KObject
| KArray (elems : list value)
| KFunction.

Record cell : Type := MkCell {
  cell_kind : kind;
  cell_props : gmap string value;
  cell_extensible : bool;
  cell_readonly : gset string;
}.

(** An ordinary object, as a literal creates it: extensible, every property
    writable. *)
Abbreviation Cell k p := (MkCell k p true ∅).

(** [Object.freeze(c)] *)
Definition frozen (c : cell) : cell :=
  MkCell (cell_kind c) (cell_props c) false (dom (cell_props c)).

(** Whether the assignment [c.k = x] can be carried out: an own property
    must be writable, a missing one needs an extensible object. *)
Definition writable (c : cell) (k : string) : bool :=
  if bool_decide (is_Some (cell_props c !! k))
  then bool_decide (k ∉ cell_readonly c)
  else cell_extensible c.

Definition empty_object : cell := Cell KObject ∅.

(** A reference that is not allocated reads as an object without
    properties. *)
Definition cell_at (h : gmap loc cell) (l : loc) : cell :=
  default empty_object (h !! l).

(** [typeof v] *)
Definition typeof (h : gmap loc cell) (v : value) : string :=
  match v with
  | VUndefined => "undefined"
  | VNull => "object"
  | VBool _ => "boolean"
  | VNum _ | VNaN => "number"
  | VStr _ => "string"
  | VRef l => match cell_kind (cell_at h l) with
              | KFunction => "function"
              | _ => "object"
              end
  end.

(** [Array.isArray(v)] *)
Definition Array_isArray (h : gmap loc cell) (v : value) : bool :=
  match v with
  | VRef l => match cell_kind (cell_at h l) with
              | KArray _ => true
              | _ => false
              end
  | _ => false
  end.

(** ToBoolean: the falsy values are [undefined], [null], [false], [0],
    [NaN] and the empty string. *)
Definition truthy (v : value) : bool :=
  match v with
  | VUndefined | VNull | VNaN => false
  | VBool b => b
  | VNum n => negb (n =? 0)%Z
  | VStr s => negb (s =? "")%string
  | VRef _ => true
  end.

(** [a === b]: primitives by value, references by identity. *)
Definition strict_eq (a b : value) : bool :=
  match a, b with
  | VUndefined, VUndefined | VNull, VNull => true
  | VBool x, VBool y => Bool.eqb x y
  | VNum x, VNum y => (x =? y)%Z
  | VStr x, VStr y => (x =? y)%string
  | VRef x, VRef y => (x =? y)%positive
  | _, _ => false
  end.

Arguments strict_eq !a !b : simpl nomatch.

(** [a || b] *)
Definition js_or (a b : value) : value := if truthy a then a else b.

(** [s.startsWith(p)] *)
Definition startsWith (s p : string) : bool := String.prefix p s.

(** ** Errors, callbacks and observable actions *)

Inductive error : Type :=
| TypeError (msg : string)
| RangeError (msg : string)
| InvalidRequest (message : string) (data : value)   (* ethErrors.rpc.invalidRequest *)
| JsError (msg : string).                             (* new Error(msg) *)

(** The callbacks the provider hands to the RPC engine. *)
Inductive callback : Type :=
| CbValue (f : value)                          (* a callback supplied by the consumer *)
| CbNOOP                                       (* utils.NOOP *)
| CbRpcPromise (p : nat) (unwrapResult : bool)
    (* getRpcPromiseCallback(resolve, reject, unwrapResult) for promise p *)
| CbAccounts (payload : value) (isInternal : bool) (callback : callback).
                                               (* the closure built in _rpcRequest *)

Inductive action : Type :=
| AEmit (name : string) (args : list value)    (* this.emit(name, ...args) *)
| ALogError (msg : string) (args : list value) (* log.error *)
| ALogWarn (msg : string)                      (* log.warn *)
| AStreamDisconnectWarning (streamName : value) (err : value)
                                               (* utils.logStreamDisconnectWarning *)
| AHandle (payload : value) (cb : callback)    (* this._rpcEngine.handle(payload, cb) *)
| ACall (f : value) (args : list value)        (* callback(err, res), a consumer function *)
| ASettle (p : nat) (unwrapResult : bool) (err res : value)
                                               (* the promise callback runs *)
| AReject (p : nat) (e : error)                (* reject(error) *)
| ALogFailure (msg : string) (e : error)       (* log.error(msg, error) *)
| AWeb3DefaultAccount (v : value).             (* legacy web3: defaultAccount = v *)

#[global] Instance error_eq_dec : EqDecision error.
Proof. solve_decision. Defined.

#[global] Instance callback_eq_dec : EqDecision callback.
Proof. solve_decision. Defined.

#[global] Instance action_eq_dec : EqDecision action.
Proof. solve_decision. Defined.

(** ** Provider state *)

(** [this._state.sentWarnings], the flags the modelled methods use. *)
Record SentWarnings : Type := {
  sw_enable : bool;
  sw_isConnected : bool;
  sw_send : bool;
}.

(** [this._state] and the public fields. *)
Record Provider : Type := {
  sentWarnings : SentWarnings;
  state_isConnected : option bool; (* this._state.isConnected: null | true | false *)
  state_accounts : value;          (* this._state.accounts: null until the first update *)
  state_isUnlocked : bool;         (* this._state.isUnlocked *)
  selectedAddress : value;
  networkVersion : value;
  chainId : value;
}.

(** The world the provider runs in: the heap, the provider, whether a legacy
    web3 object is installed ([this._web3Ref], or [window.web3.eth] being an
    object), and the number of promises created so far. *)
Record world : Type := {
  w_heap : gmap loc cell;
  w_prov : Provider;
  w_legacy_web3 : bool;
  w_promises : nat;
}.

(** The constructor's initial values (lines 52-80). *)
Definition initial_provider : Provider := {|
  sentWarnings := {| sw_enable := false; sw_isConnected := false; sw_send := false |};
  state_isConnected := None;
  state_accounts := VNull;
  state_isUnlocked := false;
  selectedAddress := VNull;
  networkVersion := VNull;
  chainId := VNull;
|}.

Definition initial_world (h : gmap loc cell) (web3 : bool) : world :=
  {| w_heap := h; w_prov := initial_provider; w_legacy_web3 := web3; w_promises := 0 |}.

Definition set_heap (h : gmap loc cell) (w : world) : world :=
  {| w_heap := h; w_prov := w_prov w; w_legacy_web3 := w_legacy_web3 w;
     w_promises := w_promises w |}.

Definition set_prov (p : Provider) (w : world) : world :=
  {| w_heap := w_heap w; w_prov := p; w_legacy_web3 := w_legacy_web3 w;
     w_promises := w_promises w |}.

Definition set_isConnected (b : option bool) (p : Provider) : Provider :=
  {| sentWarnings := sentWarnings p; state_isConnected := b;
     state_accounts := state_accounts p; state_isUnlocked := state_isUnlocked p;
     selectedAddress := selectedAddress p; networkVersion := networkVersion p; chainId := chainId p |}.

Definition set_accounts (a : value) (p : Provider) : Provider :=
  {| sentWarnings := sentWarnings p; state_isConnected := state_isConnected p;
     state_accounts := a; state_isUnlocked := state_isUnlocked p;
     selectedAddress := selectedAddress p; networkVersion := networkVersion p; chainId := chainId p |}.

Definition set_isUnlocked (b : bool) (p : Provider) : Provider :=
  {| sentWarnings := sentWarnings p; state_isConnected := state_isConnected p;
     state_accounts := state_accounts p; state_isUnlocked := b;
     selectedAddress := selectedAddress p; networkVersion := networkVersion p; chainId := chainId p |}.

Definition set_selectedAddress (a : value) (p : Provider) : Provider :=
  {| sentWarnings := sentWarnings p; state_isConnected := state_isConnected p;
     state_accounts := state_accounts p; state_isUnlocked := state_isUnlocked p;
     selectedAddress := a; networkVersion := networkVersion p; chainId := chainId p |}.

Definition set_networkVersion (v : value) (p : Provider) : Provider :=
  {| sentWarnings := sentWarnings p; state_isConnected := state_isConnected p;
     state_accounts := state_accounts p; state_isUnlocked := state_isUnlocked p;
     selectedAddress := selectedAddress p; networkVersion := v; chainId := chainId p |}.

Definition set_chainId (v : value) (p : Provider) : Provider :=
  {| sentWarnings := sentWarnings p; state_isConnected := state_isConnected p;
     state_accounts := state_accounts p; state_isUnlocked := state_isUnlocked p;
     selectedAddress := selectedAddress p; networkVersion := networkVersion p; chainId := v |}.

Definition set_sentWarnings (s : SentWarnings) (p : Provider) : Provider :=
  {| sentWarnings := s; state_isConnected := state_isConnected p;
     state_accounts := state_accounts p; state_isUnlocked := state_isUnlocked p;
     selectedAddress := selectedAddress p; networkVersion := networkVersion p; chainId := chainId p |}.

(** ** The monad: state, trace and exceptions *)

Inductive outcome (A : Type) : Type :=
| Ok (a : A)
| Throw (e : error).
Arguments Ok {A} a.
Arguments Throw {A} e.

Record run_result (A : Type) : Type := Run {
  final : world;
  trace : list action;
  result : outcome A;
}.
Arguments Run {A} final trace result.
Arguments final {A} r.
Arguments trace {A} r.
Arguments result {A} r.

Definition M (A : Type) : Type := world → run_result A.

Definition ret {A} (a : A) : M A := fun w => Run w [] (Ok a).

Definition throw {A} (e : error) : M A := fun w => Run w [] (Throw e).

Definition bind {A B} (m : M A) (k : A → M B) : M B := fun w =>
  match m w with
  | Run w1 t1 (Ok a) =>
      match k a w1 with
      | Run w2 t2 o => Run w2 (t1 ++ t2) o
      end
  | Run w1 t1 (Throw e) => Run w1 t1 (Throw e)
  end.

Declare Scope js_scope.
Delimit Scope js_scope with js.
Notation "x <- m ;; k" := (bind m (fun x => k))
  (at level 100, m at next level, right associativity) : js_scope.
Notation "m ;; k" := (bind m (fun _ => k))
  (at level 100, right associativity) : js_scope.
Local Open Scope js_scope.

(** [try { m } catch (_) { /* no-op */ }] *)
Definition try_noop (m : M unit) : M unit := fun w =>
  match m w with
  | Run w1 t1 _ => Run w1 t1 (Ok tt)
  end.

Definition tell (a : action) : M unit := fun w => Run w [a] (Ok tt).

Definition get_world : M world := fun w => Run w [] (Ok w).

Definition get_prov : M Provider := fun w => Run w [] (Ok (w_prov w)).

Definition modify_prov (f : Provider → Provider) : M unit :=
  fun w => Run (set_prov (f (w_prov w)) w) [] (Ok tt).

Definition when (b : bool) (m : M unit) : M unit := if b then m else ret tt.

(** ** Heap operations *)

(** A new object, array or function gets the first unused location. *)
Definition alloc (c : cell) : M value := fun w =>
  let l := fresh (dom (w_heap w)) in
  Run (set_heap (<[l := c]> (w_heap w)) w) [] (Ok (VRef l)).

(** [{ k1: v1, ... }] *)
Definition new_object (props : list (string * value)) : M value :=
  alloc (Cell KObject (list_to_map props)).

(** [[v1, ...]] *)
Definition new_array (elems : list value) : M value :=
  alloc (Cell (KArray elems) ∅).

(** [v.k] (also the read behind destructuring).  Reading a property of
    [undefined] or [null] throws; any other primitive has none of the
    properties the provider reads ([jsonrpc], [method], [params], [id],
    [result], [chainId], [networkVersion], [isUnlocked], [accounts]), and
    neither has a built-in prototype, so only an object's own properties
    are looked up. *)
Definition read_prop (h : gmap loc cell) (v : value) (k : string) : outcome value :=
  match v with
  | VUndefined | VNull =>
      Throw (TypeError "Cannot read properties of undefined or null")
  | VRef l => Ok (default VUndefined (cell_props (cell_at h l) !! k))
  | _ => Ok VUndefined
  end.

Definition get_prop (v : value) (k : string) : M value := fun w =>
  Run w [] (read_prop (w_heap w) v k).

Definition not_writable_msg : string :=
  "Cannot assign to read only property or add property, object is not extensible".

(** [v.k = x] in strict mode (class bodies are strict): a property cannot be
    created on a primitive, nor on an object that is not extensible, and a
    read-only property cannot be assigned; each of these throws. *)
Definition set_prop (v : value) (k : string) (x : value) : M unit := fun w =>
  match v with
  | VUndefined | VNull =>
      Run w [] (Throw (TypeError "Cannot set properties of undefined or null"))
  | VRef l =>
      let c := cell_at (w_heap w) l in
      if writable c k then
        Run (set_heap (<[l := MkCell (cell_kind c) (<[k := x]> (cell_props c))
                                     (cell_extensible c) (cell_readonly c)]>
                         (w_heap w)) w)
            [] (Ok tt)
      else
        Run w [] (Throw (TypeError not_writable_msg))
  | _ => Run w [] (Throw (TypeError "Cannot create property on a primitive"))
  end.

(** [a[i]] for an array [a]; an index past the end reads [undefined]. *)
Definition array_elems (h : gmap loc cell) (v : value) : list value :=
  match v with
  | VRef l => match cell_kind (cell_at h l) with
              | KArray elems => elems
              | _ => []
              end
  | _ => []
  end.

Definition index (h : gmap loc cell) (a : value) (i : nat) : value :=
  default VUndefined (array_elems h a !! i).

(** [v.k] where reading cannot throw: what destructuring [{ k } = v] binds
    when [v] is not [null], with [undefined] standing for the default
    [{}]. *)
Definition field (h : gmap loc cell) (v : value) (k : string) : value :=
  match read_prop h v k with
  | Ok x => x
  | Throw _ => VUndefined
  end.

(** The network parameters the spec calls valid: [chainId] a non-empty
    string starting with [0x], [networkVersion] a string. *)
Definition valid_network_parameters (chainId networkVersion : value) : Prop :=
  ∃ c n, chainId = VStr c ∧ c ≠ "" ∧ startsWith c "0x" = true
         ∧ networkVersion = VStr n.

(** The array [_handleAccountsChanged] applies: [accounts] itself when it
    is an array, otherwise the empty array it creates in its place. *)
Definition applied_accounts (h : gmap loc cell) (accounts : value) : value :=
  if Array_isArray h accounts then accounts else VRef (fresh (dom h)).

Definition applied_heap (h : gmap loc cell) (accounts : value) : gmap loc cell :=
  if Array_isArray h accounts then h
  else <[fresh (dom h) := Cell (KArray []) ∅]> h.

(** The state the provider keeps [selectedAddress] in: [null] or a truthy
    value, never [undefined] or another falsy value. *)
Definition selected_ok (p : Provider) : Prop :=
  selectedAddress p = VNull ∨ truthy (selectedAddress p) = true.

Definition is_primitive (v : value) : bool :=
  match v with
  | VRef _ => false
  | _ => true
  end.

(** [m] leaves the observation [f] of the provider as it was, whatever it
    returns or throws. *)
Definition preserves {A B : Type} (f : Provider → B) (m : M A) : Prop :=
  ∀ w, f (w_prov (final (m w))) = f (w_prov w).

(** The argument [request] asks for: a plain object (not an array, not a
    function) whose [method] is a non-empty string. *)
Definition well_formed_request (h : gmap loc cell) (args : value) : Prop :=
  ∃ l m, args = VRef l ∧ cell_kind (cell_at h l) = KObject
         ∧ field h args "method" = VStr m ∧ m ≠ "".

(** Whether [_rpcRequest] can leave the object at [l] with a truthy
    [jsonrpc]: it has one already, or the property can be assigned. *)
Definition can_tag (h : gmap loc cell) (l : loc) : bool :=
  truthy (field h (VRef l) "jsonrpc") || writable (cell_at h l) "jsonrpc".

(** [v] is an array without elements. *)
Definition is_empty_array (h : gmap loc cell) (v : value) : bool :=
  match v with
  | VRef l => match cell_kind (cell_at h l) with
              | KArray [] => true
              | _ => false
              end
  | _ => false
  end.

(** What the provider keeps in [this._state.accounts]: [null] or an
    array. *)
Definition accounts_ok (h : gmap loc cell) (p : Provider) : Prop :=
  state_accounts p = VNull ∨ Array_isArray h (state_accounts p) = true.

(** The arguments of every emission of event [name] in a trace, in order. *)
Definition emissions (name : string) (t : list action) : list (list value) :=
  omap (fun a => match a with
                 | AEmit n args => if (n =? name)%string then Some args else None
                 | _ => None
                 end) t.

(** The events emitted in a trace, in order. *)
Definition emitted (t : list action) : list string :=
  omap (fun a => match a with AEmit n _ => Some n | _ => None end) t.

(** ** Deep equality *)

(** Modelled from the spec: [fast-deep-equal] (required on line 7 as
    [dequal]) is a dependency that is not among the sources; the spec calls
    it deep value equality, order- and content-sensitive, not reference
    equality.  [all_equal] is its loop over the elements of two arrays (or
    the values of two objects): the first pair that differs, or exhausts
    the stack, decides. *)
Fixpoint all_equal (eq : value → value → option bool) (xs ys : list value)
  : option bool :=
  match xs, ys with
  | x :: xs', y :: ys' =>
      match eq x y with
      | Some true => all_equal eq xs' ys'
      | r => r
      end
  | _, _ => Some true
  end.

(** Modelled from the spec: the key test of [fast-deep-equal], every key of
    the first object is a key of the second. *)
Definition has_all_keys (ks : list string) (m : gmap string value) : bool :=
  forallb (fun k => bool_decide (is_Some (m !! k))) ks.

(** Modelled from the spec: [fast-deep-equal] itself.  Identical values are
    equal; two arrays are equal when they have the same length and their
    elements are pairwise equal, compared from the last index down; two
    plain objects when they have the same keys with equal values; two [NaN]
    are equal; everything else differs.  Each comparison of an element is a
    nested call: [depth] is the number of frames the call stack still has,
    and [None] is the engine's stack overflow. *)
Fixpoint dequal_at (depth : nat) (h : gmap loc cell) (a b : value) : option bool :=
  match depth with
  | O => None
  | S d =>
      if strict_eq a b then Some true
      else match a, b with
           | VRef la, VRef lb =>
               let ca := cell_at h la in
               let cb := cell_at h lb in
               match cell_kind ca, cell_kind cb with
               | KArray ea, KArray eb =>
                   if negb (length ea =? length eb)%nat then Some false
                   else all_equal (dequal_at d h) (rev ea) (rev eb)
               | KObject, KObject =>
                   let ka := (map_to_list (cell_props ca)).*1 in
                   if negb (length ka =? size (cell_props cb))%nat then Some false
                   else if negb (has_all_keys ka (cell_props cb)) then Some false
                   else all_equal (dequal_at d h)
                          (rev ((map_to_list (cell_props ca)).*2))
                          (rev (map (fun k => default VUndefined (cell_props cb !! k)) ka))
               | _, _ => Some false
               end
           | VNaN, VNaN => Some true
           | _, _ => Some false
           end
  end.

(** ** The provider *)

(** [./messages] is not among the sources; the provider only passes its
    strings on. *)
Record Messages : Type := {
  errors_disconnected : string;                      (* messages.errors.disconnected() *)
  errors_unsupportedSync : value → string;           (* messages.errors.unsupportedSync(method) *)
  warnings_enableDeprecation : string;
  warnings_sendDeprecation : string;
  warnings_isConnectedDeprecation : string;
}.

(** The promise an [async] method or a [new Promise] hands back: already
    rejected with what the body threw, or created and settled later through
    its callback. *)
Inductive promise : Type :=
| Rejected (e : error)
| Created (p : nat).

(** The messages the provider logs or throws, as they stand in the source. *)

Definition invalid_network_parameters_msg : string :=
  "MetaMask: Received invalid network parameters. Please report this bug.".

Definition invalid_accounts_msg : string :=
  "MetaMask: Received invalid accounts parameter. Please report this bug.".

Definition unexpected_accounts_msg : string :=
  "MetaMask: 'eth_accounts' unexpectedly updated accounts. Please report this bug.".

Definition not_an_object_msg : string :=
  "Expected a single, non-array, object argument.".

Definition bad_method_msg : string :=
  "'args.method' must be a non-empty string".

(** ** Deprecated events *)

(** [this._state.sentWarnings.events] as the constructor creates it (lines
    60-65): one flag per deprecated event. *)
Definition initial_event_warnings : gmap string bool :=
  list_to_map [("chainIdChanged", false); ("close", false);
               ("networkChanged", false); ("notification", false)].

(** Lines 486-491, [_warnOfDeprecation(eventName)], over the flags object:
    the flags afterwards and the events a console warning was printed for
    (its text, [messages.warnings.events[eventName]], comes from the
    messages module).  The overrides of [addListener], [on], [once],
    [prependListener] and [prependOnceListener] (lines 264-299) all call it
    before they register the listener. *)
Definition _warnOfDeprecation (eventName : string) (events : gmap string bool)
  : gmap string bool * list string :=
  if bool_decide (events !! eventName = Some false)
  then (<[eventName := true]> events, [eventName])
  else (events, []).

(** The warnings of a series of subscriptions, in order. *)
Fixpoint subscribe_all (eventNames : list string) (events : gmap string bool)
  : gmap string bool * list string :=
  match eventNames with
  | [] => (events, [])
  | n :: ns =>
      let '(events1, warned1) := _warnOfDeprecation n events in
      let '(events2, warned2) := subscribe_all ns events1 in
      (events2, (warned1 ++ warned2)%list)
  end.

(** ** What holds between two operations *)

(** Chain id and network version are both still [null], or both strings
    with the chain id starting with [0x]. *)
Definition chain_ok (p : Provider) : Prop :=
  (chainId p = VNull ∧ networkVersion p = VNull)
  ∨ ∃ c n, chainId p = VStr c ∧ startsWith c "0x" = true ∧ networkVersion p = VStr n.

(** [selectedAddress] is derived from the stored accounts: [null] while they
    are [null], and [accounts[0] || null] when the first account is a
    primitive (an address string, or [undefined] for no account). *)
Definition selected_derived (h : gmap loc cell) (p : Provider) : Prop :=
  match state_accounts p with
  | VNull => selectedAddress p = VNull
  | a => is_primitive (index h a 0) = true →
         selectedAddress p = js_or (index h a 0) VNull
  end.

Definition provider_ok (w : world) : Prop :=
  chain_ok (w_prov w)
  ∧ accounts_ok (w_heap w) (w_prov w)
  ∧ selected_ok (w_prov w)
  ∧ selected_derived (w_heap w) (w_prov w).

(** Every array of [h] is still the same array in [h']. *)
Definition arrays_kept (h h' : gmap loc cell) : Prop :=
  ∀ l es, cell_kind (cell_at h l) = KArray es → cell_kind (cell_at h' l) = KArray es.

(** [m] keeps [I], whatever it returns or throws. *)
Definition keeps {A : Type} (I : world → Prop) (m : M A) : Prop :=
  ∀ w, I w → I (final (m w)).

(** The errors logged in a trace ([log.error]), in order. *)
Definition logged_errors (t : list action) : list (string * list value) :=
  omap (fun a => match a with ALogError m args => Some (m, args) | _ => None end) t.

(** Every action of [m], in whatever world it runs, satisfies [P]. *)
Definition emits_only {A : Type} (P : action → bool) (m : M A) : Prop :=
  ∀ w, forallb P (trace (m w)) = true.

(** [I] does not depend on the promise counter, nor on the heap beyond the
    arrays it holds. *)
Definition stable (I : world → Prop) : Prop :=
  ∀ w h' n, I w → arrays_kept (w_heap w) h' →
            I {| w_heap := h'; w_prov := w_prov w;
                 w_legacy_web3 := w_legacy_web3 w; w_promises := n |}.

(** Flags only ever go from false to true. *)
Definition flags_le (s s' : SentWarnings) : Prop :=
  (sw_enable s = true → sw_enable s' = true)
  ∧ (sw_isConnected s = true → sw_isConnected s' = true)
  ∧ (sw_send s = true → sw_send s' = true).

(** An action that is not a deprecation warning ([log.warn]). *)
Definition not_a_warning (a : action) : bool :=
  match a with
  | ALogWarn _ => false
  | _ => true
  end.

(** An action that reaches neither the RPC engine nor a callback. *)
Definition stays_inside (a : action) : bool :=
  match a with
  | AHandle _ _ | ACall _ _ | ASettle _ _ _ _ | AReject _ _ => false
  | _ => true
  end.

(** An action other than the emission of [connect]. *)
Definition not_connect (a : action) : bool :=
  match a with
  | AEmit n _ => negb (n =? "connect")%string
  | _ => true
  end.

(** [m] either returns after emitting [connect] last and only once, with an
    object holding the provider's [chainId], the provider being connected
    from then on; or throws without having emitted [connect] or touched
    the connection flag. *)
Definition connects_or_throws (m : M unit) : Prop :=
  ∀ w, match m w with
       | Run w' t (Ok _) =>
           ∃ t0 info, t = (t0 ++ [AEmit "connect" [VRef info]])%list
                      ∧ emissions "connect" t0 = []
                      ∧ state_isConnected (w_prov w') = Some true
                      ∧ field (w_heap w') (VRef info) "chainId" = chainId (w_prov w')
       | Run w' t (Throw e) =>
           emissions "connect" t = []
           ∧ state_isConnected (w_prov w') = state_isConnected (w_prov w)
       end.

Definition initial_state_failure_msg : string :=
  "MetaMask: Failed to get initial state. Please report this bug.".

Definition invalid_isUnlocked_msg : string :=
  "MetaMask: Received invalid isUnlocked parameter. Please report this bug.".

Definition batch_not_an_array_msg : string :=
  "Batch requests must be made with an array of request objects.".

(** ** Example data

    A heap with two account lists that hold the same address, an account
    list whose only element is the empty string, network parameters
    (valid, valid with an empty network version, invalid), request
    payloads, a response, a consumer's callback, a notification and the
    state the backend reports at startup. *)

Definition example_messages : Messages := {|
  errors_disconnected := "MetaMask: Lost connection to MetaMask background process.";
  errors_unsupportedSync := fun _ =>
    "MetaMask: The provider does not support synchronous methods without a callback.";
  warnings_enableDeprecation := "MetaMask: 'ethereum.enable()' is deprecated.";
  warnings_sendDeprecation := "MetaMask: 'ethereum.send(...)' is deprecated.";
  warnings_isConnectedDeprecation := "MetaMask: 'ethereum.isConnected()' is deprecated.";
|}.

Definition example_heap : gmap loc cell :=
  list_to_map
    [ (1%positive, Cell (KArray [VStr "0xabc"]) ∅);
      (2%positive, Cell (KArray [VStr ""]) ∅);
      (3%positive, Cell KObject (list_to_map [("chainId", VStr "0x1");
                                              ("networkVersion", VStr "1")]));
      (4%positive, Cell KObject (list_to_map [("method", VStr "net_version")]));
      (5%positive, Cell KObject (list_to_map [("chainId", VStr "0x1");
                                              ("networkVersion", VStr "")]));
      (6%positive, Cell KObject (list_to_map [("chainId", VStr "1");
                                              ("networkVersion", VStr "1")]));
      (7%positive, Cell KObject (list_to_map [("method", VStr "eth_requestAccounts")]));
      (8%positive, Cell KObject (list_to_map [("id", VNum 1); ("jsonrpc", VStr "2.0");
                                              ("result", VRef 1%positive)]));
      (9%positive, Cell (KArray [VStr "0xabc"]) ∅);
      (10%positive, Cell KFunction ∅);
      (11%positive, Cell KObject (list_to_map [("method", VStr "wallet_chainChanged");
                                               ("result", VRef 3%positive)]));
      (12%positive, Cell KObject (list_to_map [("chainId", VStr "0x1");
                                               ("networkVersion", VStr "1");
                                               ("isUnlocked", VBool true);
                                               ("accounts", VRef 1%positive)])) ].

(** A provider that is unlocked, connected and knows the accounts of
    location 1. *)
Definition example_unlocked : world := {|
  w_heap := example_heap;
  w_prov := {| sentWarnings := sentWarnings initial_provider;
               state_isConnected := Some true;
               state_accounts := VRef 1%positive;
               state_isUnlocked := true;
               selectedAddress := VStr "0xabc";
               networkVersion := VStr "1";
               chainId := VStr "0x1" |};
  w_legacy_web3 := false;
  w_promises := 0;
|}.

(** A second heap: an account list, a synchronous [eth_accounts] call, an
    error response (no [result]), an [eth_uninstallFilter] call, a call of
    a method without synchronous support, a subscription notification with
    its parameters, and a well-formed request. *)
Definition example_heap2 : gmap loc cell :=
  list_to_map
    [ (1%positive, Cell (KArray [VStr "0xabc"]) ∅);
      (2%positive, Cell KObject (list_to_map [("method", VStr "eth_accounts");
                                              ("id", VNum 5)]));
      (3%positive, Cell KObject (list_to_map [("id", VNum 5); ("jsonrpc", VStr "2.0");
                                              ("error", VStr "unauthorized")]));
      (4%positive, Cell KObject (list_to_map [("method", VStr "eth_uninstallFilter");
                                              ("id", VNum 7)]));
      (5%positive, Cell KObject (list_to_map [("method", VStr "eth_sign")]));
      (6%positive, Cell KObject (list_to_map [("method", VStr "eth_subscription");
                                              ("params", VRef 7%positive)]));
      (7%positive, Cell KObject ∅);
      (8%positive, Cell KObject (list_to_map [("method", VStr "eth_chainId")])) ].

(** An unlocked provider that knows the accounts of location 1 of the
    second heap. *)
Definition example_enabled : world := {|
  w_heap := example_heap2;
  w_prov := w_prov example_unlocked;
  w_legacy_web3 := false;
  w_promises := 0;
|}.

Definition example_notifications : list string := ["eth_subscription"].

(** A third heap, with requests the consumer has frozen: an
    [eth_requestAccounts] and an [eth_uninstallFilter] request, neither
    with a [jsonrpc], and a callback. *)
Definition example_frozen_heap : gmap loc cell :=
  list_to_map
    [ (1%positive, frozen (Cell KObject
                             (list_to_map [("method", VStr "eth_requestAccounts")])));
      (2%positive, Cell KFunction ∅);
      (3%positive, frozen (Cell KObject
                             (list_to_map [("method", VStr "eth_uninstallFilter");
                                           ("id", VNum 7)]))) ].

Section MetamaskInpageProvider.

(** The messages module, the notification allow-list of [./utils] and the
    depth of the engine's call stack are fixed but arbitrary. *)
Variable messages : Messages.
Variable EMITTED_NOTIFICATIONS : list string.
Variable stack_limit : nat.

(** [dequal(a, b)]: the outermost call and [stack_limit] nested ones. *)
Definition dequal_result (h : gmap loc cell) (a b : value) : option bool :=
  dequal_at (S stack_limit) h a b.

Definition dequal (a b : value) : M bool := fun w =>
  match dequal_result (w_heap w) a b with
  | Some r => Run w [] (Ok r)
  | None => Run w [] (Throw (RangeError "Maximum call stack size exceeded"))
  end.

(** [this.emit(name, ...args)].  The provider listens to its own [connect]
    event (lines 110-112); whatever other listeners do is outside the
    provider and is recorded as the emission itself. *)
Definition emit (name : string) (args : list value) : M unit :=
  tell (AEmit name args) ;;
  when (name =? "connect")%string (modify_prov (set_isConnected (Some true))).

(** [this._rpcEngine.handle(payload, cb)] *)
Definition handle (payload : value) (cb : callback) : M unit :=
  tell (AHandle payload cb).

(** Lines 366-411. *)
Definition _handleAccountsChanged (accounts : value) (isEthAccounts isInternal : bool)
  : M unit :=
  w <- get_world ;;
  _accounts <-
    (if negb (Array_isArray (w_heap w) accounts) then
       tell (ALogError
               "MetaMask: Received invalid accounts parameter. Please report this bug."
               [accounts]) ;;
       new_array []
     else ret accounts) ;;
  this <- get_prov ;;
  same <- dequal (state_accounts this) _accounts ;;
  when (negb same)
    (when (isEthAccounts && negb (strict_eq (state_accounts this) VNull)
           && negb isInternal)
       (tell (ALogError
                "MetaMask: 'eth_accounts' unexpectedly updated accounts. Please report this bug."
                [_accounts])) ;;
     modify_prov (set_accounts _accounts) ;;
     emit "accountsChanged" [_accounts]) ;;
  w <- get_world ;;
  let first := index (w_heap w) _accounts 0 in
  when (negb (strict_eq (selectedAddress (w_prov w)) first))
    (modify_prov (set_selectedAddress (js_or first VNull))) ;;
  w <- get_world ;;
  when (w_legacy_web3 w) (tell (AWeb3DefaultAccount (selectedAddress (w_prov w)))).

(** Lines 425-446.  The parameter is destructured; [undefined] takes the
    default [{}], [null] cannot be destructured. *)
Definition _handleChainChanged (networkInfo : value) : M unit :=
  info <- (if strict_eq networkInfo VUndefined then new_object [] else ret networkInfo) ;;
  chainId' <- get_prop info "chainId" ;;
  networkVersion' <- get_prop info "networkVersion" ;;
  w <- get_world ;;
  if negb (typeof (w_heap w) chainId' =? "string")%string
     || negb (match chainId' with VStr s => startsWith s "0x" | _ => false end)
     || negb (typeof (w_heap w) networkVersion' =? "string")%string
  then
    o <- new_object [("chainId", chainId'); ("networkVersion", networkVersion')] ;;
    tell (ALogError
            "MetaMask: Received invalid network parameters. Please report this bug."
            [o])
  else
    this <- get_prov ;;
    when (negb (strict_eq chainId' (chainId this))
          || negb (strict_eq networkVersion' (networkVersion this)))
      (modify_prov (set_chainId chainId') ;;
       this <- get_prov ;;
       emit "chainChanged" [chainId this] ;;
       emit "chainIdChanged" [chainId this] ;;
       modify_prov (set_networkVersion networkVersion') ;;
       this <- get_prov ;;
       emit "networkChanged" [networkVersion this]).

(** Modelled from the spec: [utils.logStreamDisconnectWarning] is not among
    the sources; the spec has the disconnect handler receive a label
    identifying the channel that failed, and counts the warning as a side
    channel.  The call is recorded as one action with its arguments;
    whatever the helper does lies within that action. *)
Definition logStreamDisconnectWarning (streamName err : value) : M unit :=
  tell (AStreamDisconnectWarning streamName err).

(** Lines 346-360. *)
Definition _handleDisconnect (streamName err : value) : M unit :=
  logStreamDisconnectWarning streamName err ;;
  disconnectError <- new_object [("code", VNum 1011);
                                 ("reason", VStr (errors_disconnected messages))] ;;
  this <- get_prov ;;
  when (bool_decide (state_isConnected this = Some true))
    (emit "disconnect" [disconnectError] ;;
     emit "close" [disconnectError]) ;;
  modify_prov (set_isConnected (Some false)).

(** Lines 313-340. *)
Definition _rpcRequest (payload : value) (callback : callback) (isInternal : bool)
  : M unit :=
  w <- get_world ;;
  cb <-
    (if negb (Array_isArray (w_heap w) payload) then
       jsonrpc <- get_prop payload "jsonrpc" ;;
       when (negb (truthy jsonrpc)) (set_prop payload "jsonrpc" (VStr "2.0")) ;;
       method <- get_prop payload "method" ;;
       if strict_eq method (VStr "eth_accounts")
          || strict_eq method (VStr "eth_requestAccounts")
       then ret (CbAccounts payload isInternal callback)
       else ret callback
     else ret callback) ;;
  handle payload cb.

(** Modelled from the spec: [utils.getRpcPromiseCallback] is not among the
    sources; the spec has the returned future resolve to the pipeline's
    result or reject with its error.  Running the callback it builds is
    recorded as settling promise [p] with [(err, res)]. *)
Definition rpcPromiseCallback (p : nat) (unwrapResult : bool) (err res : value) : M unit :=
  tell (ASettle p unwrapResult err res).

(** What happens when the RPC engine calls [cb(err, res)].  The closure of
    lines 329-336 reads [payload.method] when it runs. *)
Fixpoint invoke (cb : callback) (err res : value) : M unit :=
  match cb with
  | CbValue f =>
      w <- get_world ;;
      if (typeof (w_heap w) f =? "function")%string
      then tell (ACall f [err; res])
      else throw (TypeError "callback is not a function")
  | CbNOOP => ret tt
  | CbRpcPromise p unwrapResult => rpcPromiseCallback p unwrapResult err res
  | CbAccounts payload isInternal callback =>
      r <- get_prop res "result" ;;
      accounts <- (if truthy r then ret r else new_array []) ;;
      method <- get_prop payload "method" ;;
      _handleAccountsChanged accounts (strict_eq method (VStr "eth_accounts"))
                             isInternal ;;
      invoke callback err res
  end.

(** Lines 455-481. *)
Definition _handleUnlockStateChanged (isUnlocked : value) : M unit :=
  match isUnlocked with
  | VBool b =>
      this <- get_prov ;;
      when (negb (eqb b (state_isUnlocked this)))
        (modify_prov (set_isUnlocked b) ;;
         if b then
           try_noop
             (params <- new_array [] ;;
              payload <- new_object [("method", VStr "eth_accounts"); ("params", params)] ;;
              _rpcRequest payload CbNOOP true)
         else
           empty <- new_array [] ;;
           _handleAccountsChanged empty false false)
  | _ =>
      tell (ALogError
              "MetaMask: Received invalid isUnlocked parameter. Please report this bug."
              [])
  end.

(** [new Promise(...)]: the next promise. *)
Definition new_promise : M nat := fun w =>
  Run {| w_heap := w_heap w; w_prov := w_prov w; w_legacy_web3 := w_legacy_web3 w;
         w_promises := S (w_promises w) |} [] (Ok (w_promises w)).

(** An [async] body: what it throws rejects the promise it returns. *)
Definition async (m : M promise) : M promise := fun w =>
  match m w with
  | Run w1 t1 (Ok p) => Run w1 t1 (Ok p)
  | Run w1 t1 (Throw e) => Run w1 t1 (Ok (Rejected e))
  end.

(** [try { m } catch (error) { reject(error) }] inside the executor of
    promise [p]; an executor that throws rejects its promise as well. *)
Definition or_reject (p : nat) (m : M unit) : M unit := fun w =>
  match m w with
  | Run w1 t1 (Ok _) => Run w1 t1 (Ok tt)
  | Run w1 t1 (Throw e) => Run w1 (t1 ++ [AReject p e]) (Ok tt)
  end.

(** Lines 219-243. *)
Definition request (args : value) : M promise :=
  async
    (w <- get_world ;;
     if negb (typeof (w_heap w) args =? "object")%string || Array_isArray (w_heap w) args
     then throw (InvalidRequest "Expected a single, non-array, object argument." args)
     else
       method <- get_prop args "method" ;;
       params <- get_prop args "params" ;;
       w <- get_world ;;
       if negb (typeof (w_heap w) method =? "string")%string || negb (truthy method)
       then throw (InvalidRequest "'args.method' must be a non-empty string" args)
       else
         p <- new_promise ;;
         or_reject p
           (payload <- new_object [("method", method); ("params", params)] ;;
            _rpcRequest payload (CbRpcPromise p true) false) ;;
         ret (Created p)).

(** Lines 251-253. *)
Definition sendAsync (payload cb : value) : M unit :=
  _rpcRequest payload (CbValue cb) false.

Definition warn_once (sent : SentWarnings → bool) (mark : SentWarnings → SentWarnings)
           (msg : string) : M unit :=
  this <- get_prov ;;
  when (negb (sent (sentWarnings this)))
    (tell (ALogWarn msg) ;;
     modify_prov (fun p => set_sentWarnings (mark (sentWarnings p)) p)).

(** Lines 579-586. *)
Definition isConnected : M (option bool) :=
  warn_once sw_isConnected
    (fun s => {| sw_enable := sw_enable s; sw_isConnected := true; sw_send := sw_send s |})
    (warnings_isConnectedDeprecation messages) ;;
  this <- get_prov ;;
  ret (state_isConnected this).

(** Lines 594-611. *)
Definition enable : M promise :=
  warn_once sw_enable
    (fun s => {| sw_enable := true; sw_isConnected := sw_isConnected s; sw_send := sw_send s |})
    (warnings_enableDeprecation messages) ;;
  p <- new_promise ;;
  or_reject p
    (params <- new_array [] ;;
     payload <- new_object [("method", VStr "eth_requestAccounts"); ("params", params)] ;;
     _rpcRequest payload (CbRpcPromise p true) false) ;;
  ret (Created p).

(** Lines 656-687. *)
Definition _sendSync (payload : value) : M value :=
  method <- get_prop payload "method" ;;
  this <- get_prov ;;
  result <-
    (if strict_eq method (VStr "eth_accounts") then
       if truthy (selectedAddress this) then new_array [selectedAddress this]
       else new_array []
     else if strict_eq method (VStr "eth_coinbase") then
       ret (js_or (selectedAddress this) VNull)
     else if strict_eq method (VStr "eth_uninstallFilter") then
       _rpcRequest payload CbNOOP false ;;
       ret (VBool true)
     else if strict_eq method (VStr "net_version") then
       ret (js_or (networkVersion this) VNull)
     else
       throw (JsError (errors_unsupportedSync messages method))) ;;
  id <- get_prop payload "id" ;;
  jsonrpc <- get_prop payload "jsonrpc" ;;
  new_object [("id", id); ("jsonrpc", jsonrpc); ("result", result)].

(** What [send] returns: a promise (first form) or a value. *)
Inductive sent : Type :=
| SentPromise (p : promise)
| SentValue (v : value).

(** Lines 622-650. *)
Definition send (methodOrPayload callbackOrArgs : value) : M sent :=
  warn_once sw_send
    (fun s => {| sw_enable := sw_enable s; sw_isConnected := sw_isConnected s; sw_send := true |})
    (warnings_sendDeprecation messages) ;;
  w <- get_world ;;
  if (typeof (w_heap w) methodOrPayload =? "string")%string
     && (negb (truthy callbackOrArgs) || Array_isArray (w_heap w) callbackOrArgs)
  then
    p <- new_promise ;;
    or_reject p
      (payload <- new_object [("method", methodOrPayload); ("params", callbackOrArgs)] ;;
       _rpcRequest payload (CbRpcPromise p false) false) ;;
    ret (SentPromise (Created p))
  else if (typeof (w_heap w) methodOrPayload =? "object")%string
          && (typeof (w_heap w) callbackOrArgs =? "function")%string
  then
    _rpcRequest methodOrPayload (CbValue callbackOrArgs) false ;;
    ret (SentValue VUndefined)
  else
    r <- _sendSync methodOrPayload ;;
    ret (SentValue r).

(** The notification listener of the constructor, lines 132-146. *)
Definition on_notification (payload : value) : M unit :=
  method <- get_prop payload "method" ;;
  if strict_eq method (VStr "wallet_accountsChanged") then
    r <- get_prop payload "result" ;;
    _handleAccountsChanged r false false
  else if strict_eq method (VStr "wallet_unlockStateChanged") then
    r <- get_prop payload "result" ;;
    _handleUnlockStateChanged r
  else if strict_eq method (VStr "wallet_chainChanged") then
    r <- get_prop payload "result" ;;
    _handleChainChanged r
  else if match method with
          | VStr m => bool_decide (m ∈ EMITTED_NOTIFICATIONS)
          | _ => false
          end
  then
    emit "notification" [payload] ;;
    params <- get_prop payload "params" ;;
    message <- new_object [("type", method); ("data", params)] ;;
    emit "message" [message]
  else ret tt.

(** The bootstrap, lines 150-170: what runs when the
    [wallet_getProviderState] request resolves with [state]. *)
Definition on_provider_state (state : value) : M unit := fun w =>
  match
    (chainId' <- get_prop state "chainId" ;;
     networkVersion' <- get_prop state "networkVersion" ;;
     isUnlocked <- get_prop state "isUnlocked" ;;
     accounts <- get_prop state "accounts" ;;
     info <- new_object [("chainId", chainId'); ("networkVersion", networkVersion')] ;;
     _handleChainChanged info ;;
     _handleAccountsChanged accounts false false ;;
     _handleUnlockStateChanged isUnlocked ;;
     this <- get_prov ;;
     connectInfo <- new_object [("chainId", chainId this)] ;;
     emit "connect" [connectInfo]) w
  with
  | Run w1 t1 (Ok _) => Run w1 t1 (Ok tt)
  | Run w1 t1 (Throw e) =>
      Run w1
          (t1 ++ [ALogFailure
                    "MetaMask: Failed to get initial state. Please report this bug." e])
          (Ok tt)
  end.

(** ** The experimental API (lines 498-569)

    The functions of the object behind [_metamask].  The proxy around it
    only prints a one-time warning when one of them is looked up. *)

(** Lines 515-530, [requestBatch]. *)
Definition requestBatch (requests : value) : M promise :=
  async
    (w <- get_world ;;
     if negb (Array_isArray (w_heap w) requests)
     then throw (InvalidRequest
                   "Batch requests must be made with an array of request objects."
                   requests)
     else
       p <- new_promise ;;
       or_reject p (_rpcRequest requests (CbRpcPromise p true) false) ;;
       ret (Created p)).

(** Lines 539-541, [isEnabled]. *)
Definition isEnabled : M bool :=
  w <- get_world ;;
  let accounts := state_accounts (w_prov w) in
  ret (Array_isArray (w_heap w) accounts
       && (0 <? length (array_elems (w_heap w) accounts))%nat).

(** ** Sequences of operations

    What can happen to a provider: a consumer calls one of its methods, or
    the constructor's wiring delivers a notification, the startup state, a
    stream failure, or the engine's answer to a request.  Each one runs to
    its end, or to its exception, before the next one starts. *)
Inductive call : Type :=
| CallRequest (args : value)
| CallSendAsync (payload cb : value)
| CallSend (methodOrPayload callbackOrArgs : value)
| CallEnable
| CallIsConnected
| CallRequestBatch (requests : value)
| CallIsEnabled
| Notification (payload : value)
| ProviderState (state : value)
| StreamFailure (streamName err : value)
| Response (cb : callback) (err res : value).

Definition discard {A : Type} (m : M A) : M unit := _ <- m ;; ret tt.

Definition run_call (c : call) : M unit :=
  match c with
  | CallRequest args => discard (request args)
  | CallSendAsync payload cb => sendAsync payload cb
  | CallSend methodOrPayload callbackOrArgs => discard (send methodOrPayload callbackOrArgs)
  | CallEnable => discard enable
  | CallIsConnected => discard isConnected
  | CallRequestBatch requests => discard (requestBatch requests)
  | CallIsEnabled => discard isEnabled
  | Notification payload => on_notification payload
  | ProviderState state => on_provider_state state
  | StreamFailure streamName err => _handleDisconnect streamName err
  | Response cb err res => invoke cb err res
  end.

Fixpoint run_calls (cs : list call) (w : world) : world * list action :=
  match cs with
  | [] => (w, [])
  | c :: cs' =>
      let r := run_call c w in
      let '(w', t) := run_calls cs' (final r) in
      (w', (trace r ++ t)%list)
  end.

(** ** Running computations *)

Ltac step :=
  cbn [final trace result w_heap w_prov w_legacy_web3 w_promises
       set_heap set_prov app strict_eq typeof truthy js_or read_prop
       cell_props cell_kind cell_extensible cell_readonly default
       sentWarnings state_isConnected state_accounts state_isUnlocked
       selectedAddress networkVersion chainId
       set_isConnected set_accounts set_isUnlocked set_selectedAddress
       set_networkVersion set_chainId set_sentWarnings
       negb orb andb String.eqb Ascii.eqb Bool.eqb].

Ltac run :=
  cbv [bind ret throw tell get_world get_prov modify_prov when try_noop
       alloc new_object new_array get_prop set_prop emit handle dequal
       new_promise async or_reject warn_once
       logStreamDisconnectWarning rpcPromiseCallback];
  step.

Lemma fresh_unallocated (h : gmap loc cell) : h !! fresh (dom h) = None.
Proof. apply not_elem_of_dom, is_fresh. Qed.

Lemma strict_eq_true (a b : value) : strict_eq a b = true → a = b.
Proof.
  destruct a, b; cbn; try discriminate; try reflexivity; intros H; f_equal.
  - by apply Bool.eqb_prop.
  - by apply Z.eqb_eq.
  - by apply String.eqb_eq.
  - by apply Pos.eqb_eq.
Qed.

Lemma strict_eq_str_refl (s : string) : strict_eq (VStr s) (VStr s) = true.
Proof. apply String.eqb_refl. Qed.

Lemma strict_eq_ref_ne (l l' : loc) : l ≠ l' → strict_eq (VRef l) (VRef l') = false.
Proof. intros H. cbn. by apply Pos.eqb_neq. Qed.

Lemma cell_at_insert_eq (h : gmap loc cell) (l : loc) (c : cell) :
  cell_at (<[l := c]> h) l = c.
Proof. unfold cell_at. by rewrite lookup_insert_eq. Qed.

Lemma cell_at_insert_ne (h : gmap loc cell) (l l' : loc) (c : cell) :
  l ≠ l' → cell_at (<[l := c]> h) l' = cell_at h l'.
Proof. intros H. unfold cell_at. by rewrite lookup_insert_ne. Qed.

Lemma cell_at_fresh (h : gmap loc cell) : cell_at h (fresh (dom h)) = empty_object.
Proof. unfold cell_at. by rewrite fresh_unallocated. Qed.

Lemma insert_fresh_subseteq (h : gmap loc cell) (c : cell) :
  h ⊆ <[fresh (dom h) := c]> h.
Proof. apply insert_subseteq, fresh_unallocated. Qed.

(** Reads back what was just allocated or written. *)
Ltac heap_reads :=
  repeat (progress (step;
                    rewrite ?cell_at_insert_eq, ?list_to_map_nil, ?lookup_empty; step)).

Lemma field_ref (h : gmap loc cell) (l : loc) (k : string) :
  field h (VRef l) k = default VUndefined (cell_props (cell_at h l) !! k).
Proof. reflexivity. Qed.

(** ** Frame rules: what a computation leaves alone *)

Section Preserves.
Context {B : Type} (f : Provider → B).

Lemma preserves_ret {A} (a : A) : preserves f (ret a).
Proof. by intros w. Qed.

Lemma preserves_throw {A} (e : error) : preserves f (throw (A := A) e).
Proof. by intros w. Qed.

Lemma preserves_tell (a : action) : preserves f (tell a).
Proof. by intros w. Qed.

Lemma preserves_get_world : preserves f get_world.
Proof. by intros w. Qed.

Lemma preserves_get_prov : preserves f get_prov.
Proof. by intros w. Qed.

Lemma preserves_alloc (c : cell) : preserves f (alloc c).
Proof. by intros w. Qed.

Lemma preserves_get_prop (v : value) (k : string) : preserves f (get_prop v k).
Proof. by intros w. Qed.

Lemma preserves_set_prop (v : value) (k : string) (x : value) :
  preserves f (set_prop v k x).
Proof. intros w. unfold set_prop. destruct v; try done. by destruct (writable _ _). Qed.

Lemma preserves_new_promise : preserves f new_promise.
Proof. by intros w. Qed.

Lemma preserves_dequal (a b : value) : preserves f (dequal a b).
Proof. intros w. unfold dequal. by destruct (dequal_result _ _ _). Qed.

Lemma preserves_modify_prov (g : Provider → Provider) :
  (∀ p, f (g p) = f p) → preserves f (modify_prov g).
Proof. intros Hg w. cbn. apply Hg. Qed.

Lemma preserves_bind {A C} (m : M A) (k : A → M C) :
  preserves f m → (∀ a, preserves f (k a)) → preserves f (bind m k).
Proof.
  intros Hm Hk w. unfold bind. specialize (Hm w).
  destruct (m w) as [w1 t1 [a|e]]; cbn in *; [|done].
  specialize (Hk a w1). destruct (k a w1) as [w2 t2 o]; cbn in *. congruence.
Qed.

Lemma preserves_when (b : bool) (m : M unit) :
  preserves f m → preserves f (when b m).
Proof. destruct b; [done|]. intros _. apply preserves_ret. Qed.

Lemma preserves_try_noop (m : M unit) : preserves f m → preserves f (try_noop m).
Proof.
  intros Hm w. specialize (Hm w). unfold try_noop. by destruct (m w).
Qed.

Lemma preserves_async (m : M promise) : preserves f m → preserves f (async m).
Proof.
  intros Hm w. specialize (Hm w). unfold async. by destruct (m w) as [w1 t1 [p|e]].
Qed.

Lemma preserves_or_reject (p : nat) (m : M unit) :
  preserves f m → preserves f (or_reject p m).
Proof.
  intros Hm w. specialize (Hm w). unfold or_reject.
  by destruct (m w) as [w1 t1 [u|e]].
Qed.

Lemma preserves_emit (name : string) (args : list value) :
  (∀ p, f (set_isConnected (Some true) p) = f p) → preserves f (emit name args).
Proof.
  intros Hf. unfold emit. apply preserves_bind; [apply preserves_tell|].
  intros _. apply preserves_when. by apply preserves_modify_prov.
Qed.

Lemma preserves_warn_once sent mark msg :
  (∀ s p, f (set_sentWarnings s p) = f p) → preserves f (warn_once sent mark msg).
Proof.
  intros Hf. unfold warn_once. apply preserves_bind; [apply preserves_get_prov|].
  intros this. apply preserves_when.
  apply preserves_bind; [apply preserves_tell|].
  intros _. apply preserves_modify_prov. intros p. apply Hf.
Qed.
End Preserves.

(** Breaks a computation down to the rules above. *)
Ltac frame :=
  repeat first
    [ apply preserves_bind; [|intros ?]
    | apply preserves_ret | apply preserves_throw | apply preserves_tell
    | apply preserves_get_world | apply preserves_get_prov | apply preserves_alloc
    | apply preserves_get_prop | apply preserves_set_prop | apply preserves_new_promise
    | apply preserves_dequal | apply preserves_when | apply preserves_try_noop
    | apply preserves_async | apply preserves_or_reject
    | apply preserves_emit; [intros ?; reflexivity]
    | apply preserves_warn_once; [intros ? ?; reflexivity]
    | apply preserves_modify_prov; [intros ?; reflexivity]
    | match goal with
      | |- preserves _ (if ?b then _ else _) => destruct b
      | |- preserves _ (match ?v with _ => _ end) => destruct v
      end ].

(** [_rpcRequest], and with it [request], [sendAsync] and [enable], never
    write a field of the provider: the provider after the call is the
    provider before it. *)
Lemma rpcRequest_preserves (payload : value) (callback : callback) (isInternal : bool) :
  preserves (fun p => p) (_rpcRequest payload callback isInternal).
Proof. unfold _rpcRequest, handle, new_object, new_array. frame. Qed.

Lemma request_preserves (args : value) : preserves (fun p => p) (request args).
Proof.
  unfold request. apply preserves_async.
  apply preserves_bind; [apply preserves_get_world|intros w].
  destruct (_ || _); [apply preserves_throw|].
  apply preserves_bind; [apply preserves_get_prop|intros method].
  apply preserves_bind; [apply preserves_get_prop|intros params].
  apply preserves_bind; [apply preserves_get_world|intros w'].
  destruct (_ || _); [apply preserves_throw|].
  apply preserves_bind; [apply preserves_new_promise|intros p].
  apply preserves_bind; [|intros; apply preserves_ret].
  apply preserves_or_reject.
  apply preserves_bind; [apply preserves_alloc|intros payload].
  apply rpcRequest_preserves.
Qed.

Lemma sendAsync_preserves (payload cb : value) :
  preserves (fun p => p) (sendAsync payload cb).
Proof. apply rpcRequest_preserves. Qed.

(** ** Transport failure (C8) *)

(** One call of [_handleDisconnect], executed symbolically. *)
Lemma handleDisconnect_run (streamName err : value) (w : world) :
  let l := fresh (dom (w_heap w)) in
  let disconnectError :=
    Cell KObject (list_to_map [("code", VNum 1011);
                               ("reason", VStr (errors_disconnected messages))]) in
  _handleDisconnect streamName err w
  = Run (set_prov (set_isConnected (Some false) (w_prov w))
                  (set_heap (<[l := disconnectError]> (w_heap w)) w))
        (AStreamDisconnectWarning streamName err
         :: (if bool_decide (state_isConnected (w_prov w) = Some true)
             then [AEmit "disconnect" [VRef l]; AEmit "close" [VRef l]]
             else []))
        (Ok tt).
Proof.
  intros l disconnectError. subst l disconnectError.
  destruct w as [h this web3 np].
  unfold _handleDisconnect. run.
  by destruct (state_isConnected this) as [[|]|].
Qed.

(** C8.  [_handleDisconnect] never throws and always leaves
    [this._state.isConnected] false.  It emits [disconnect] and then
    [close], both carrying one new object [{code: 1011, reason}] whose
    reason is the generic message, exactly when [isConnected] was [true]
    when it was called; from [null] (never connected) or [false] (already
    disconnected) it emits nothing.  In particular a second failure,
    whatever its label, emits nothing.  No other field of the provider
    changes. *)
Theorem handleDisconnect_signals_once (streamName err : value) (w : world) :
  let r := _handleDisconnect streamName err w in
  let l := fresh (dom (w_heap w)) in
  let was_connected := bool_decide (state_isConnected (w_prov w) = Some true) in
  result r = Ok tt
  ∧ w_prov (final r) = set_isConnected (Some false) (w_prov w)
  ∧ state_isConnected (w_prov (final r)) = Some false
  ∧ w_heap w !! l = None
  ∧ w_heap (final r) =
      <[l := Cell KObject (list_to_map
               [("code", VNum 1011);
                ("reason", VStr (errors_disconnected messages))])]> (w_heap w)
  ∧ emitted (trace r) = (if was_connected then ["disconnect"; "close"] else [])
  ∧ emissions "disconnect" (trace r) = (if was_connected then [[VRef l]] else [])
  ∧ emissions "close" (trace r) = (if was_connected then [[VRef l]] else [])
  ∧ (∀ streamName' err',
        emitted (trace (_handleDisconnect streamName' err' (final r))) = []).
Proof.
  intros r l was_connected. subst r was_connected.
  rewrite handleDisconnect_run. fold l. step.
  repeat split; try apply fresh_unallocated; try (by destruct (bool_decide _)).
Qed.

(** ** Chain and network (C7, C2) *)

(** The part of the validation the code keeps.  When the received object
    is not [null] and its [chainId] is not a string, is empty or does not
    start with [0x], or its [networkVersion] is not a string,
    [_handleChainChanged] returns normally: it logs one error carrying a
    new object [{chainId, networkVersion}], leaves every field of the
    provider and every existing object as it was, and emits nothing. *)
Lemma handleChainChanged_rejects_invalid (networkInfo : value) (w : world) :
  networkInfo ≠ VNull →
  ¬ valid_network_parameters (field (w_heap w) networkInfo "chainId")
                             (field (w_heap w) networkInfo "networkVersion") →
  let r := _handleChainChanged networkInfo w in
  result r = Ok tt
  ∧ w_prov (final r) = w_prov w
  ∧ w_heap w ⊆ w_heap (final r)
  ∧ emitted (trace r) = []
  ∧ ∃ l, trace r = [ALogError invalid_network_parameters_msg [VRef l]]
         ∧ w_heap (final r) !! l =
             Some (Cell KObject (list_to_map
                     [("chainId", field (w_heap w) networkInfo "chainId");
                      ("networkVersion", field (w_heap w) networkInfo "networkVersion")])).
Proof.
  intros Hnull Hinvalid r. subst r.
  unfold _handleChainChanged.
  destruct networkInfo as [| |b|z| |s|l]; try congruence.
  - (* undefined: the default {} *)
    run. heap_reads. repeat split.
    + etrans; apply insert_fresh_subseteq.
    + eexists. split; [reflexivity|]. by rewrite lookup_insert_eq.
  - run. heap_reads. repeat split; [apply insert_fresh_subseteq|].
    eexists. split; [reflexivity|]. by rewrite lookup_insert_eq.
  - run. heap_reads. repeat split; [apply insert_fresh_subseteq|].
    eexists. split; [reflexivity|]. by rewrite lookup_insert_eq.
  - run. heap_reads. repeat split; [apply insert_fresh_subseteq|].
    eexists. split; [reflexivity|]. by rewrite lookup_insert_eq.
  - run. heap_reads. repeat split; [apply insert_fresh_subseteq|].
    eexists. split; [reflexivity|]. by rewrite lookup_insert_eq.
  - (* an object *)
    rewrite !field_ref in Hinvalid. rewrite !field_ref.
    run.
    set (c := default VUndefined (cell_props (cell_at (w_heap w) l) !! "chainId")) in *.
    set (n := default VUndefined (cell_props (cell_at (w_heap w) l) !! "networkVersion")) in *.
    assert (Hcond :
      negb (typeof (w_heap w) c =? "string")%string
      || negb (match c with VStr s => startsWith s "0x" | _ => false end)
      || negb (typeof (w_heap w) n =? "string")%string = true).
    { destruct c as [| |b|z| |s|lc]; try reflexivity.
      - step. destruct (startsWith s "0x") eqn:Hs; [|reflexivity].
        destruct n as [| |b|z| |t|ln]; try reflexivity.
        + exfalso. apply Hinvalid. exists s, t. repeat split; auto.
          intros ->. discriminate.
        + step. by destruct (cell_kind (cell_at (w_heap w) ln)).
      - step. by destruct (cell_kind (cell_at (w_heap w) lc)). }
    rewrite Hcond. step. repeat split; [apply insert_fresh_subseteq|].
    eexists. split; [reflexivity|]. by rewrite lookup_insert_eq.
Qed.

(** C7 at [null].  The parameter's default [{}] applies to [undefined]
    only: [null] has no [chainId] and no [networkVersion], so its
    parameters are invalid, yet destructuring it throws a TypeError before
    the validation is reached.  Nothing is logged, and the exception
    escapes: a [wallet_chainChanged] notification whose [result] is [null]
    makes the notification listener throw. *)
Theorem handleChainChanged_null_throws (w : world) :
  ¬ valid_network_parameters (field (w_heap w) VNull "chainId")
                             (field (w_heap w) VNull "networkVersion")
  ∧ ∃ msg, _handleChainChanged VNull w = Run w [] (Throw (TypeError msg))
           ∧ ∀ l, field (w_heap w) (VRef l) "method" = VStr "wallet_chainChanged" →
                  field (w_heap w) (VRef l) "result" = VNull →
                  on_notification (VRef l) w = Run w [] (Throw (TypeError msg)).
Proof.
  split; [by intros (c & n & Hc & _)|].
  eexists. split; [reflexivity|].
  intros l Hm Hr. rewrite !field_ref in *.
  unfold on_notification. run. rewrite Hm. step. by rewrite Hr.
Qed.

Lemma field_str_is_ref (h : gmap loc cell) (v : value) (k s : string) :
  field h v k = VStr s →
  ∃ l, v = VRef l ∧ default VUndefined (cell_props (cell_at h l) !! k) = VStr s.
Proof. destruct v; try discriminate. intros H. eauto. Qed.

(** What one call does with valid parameters: nothing is allocated or
    logged, both fields hold the pair afterwards, and the three events are
    emitted, in the order [chainChanged], [chainIdChanged],
    [networkChanged], exactly when the pair differs from the stored one. *)
Lemma handleChainChanged_valid (networkInfo : value) (c n : string) (w : world) :
  startsWith c "0x" = true →
  field (w_heap w) networkInfo "chainId" = VStr c →
  field (w_heap w) networkInfo "networkVersion" = VStr n →
  let r := _handleChainChanged networkInfo w in
  let changed := negb (strict_eq (VStr c) (chainId (w_prov w)))
                 || negb (strict_eq (VStr n) (networkVersion (w_prov w))) in
  result r = Ok tt
  ∧ w_heap (final r) = w_heap w
  ∧ trace r = (if changed
               then [AEmit "chainChanged" [VStr c]; AEmit "chainIdChanged" [VStr c];
                     AEmit "networkChanged" [VStr n]]
               else [])
  ∧ w_prov (final r) = set_networkVersion (VStr n) (set_chainId (VStr c) (w_prov w)).
Proof.
  intros Hc Hfc Hfn r changed. subst r changed.
  destruct (field_str_is_ref _ _ _ _ Hfc) as (l & -> & Hc').
  rewrite field_ref in Hfn.
  unfold _handleChainChanged. run.
  rewrite Hc', Hfn. step. rewrite Hc. step.
  destruct (negb (strict_eq (VStr c) (chainId (w_prov w)))
            || negb (strict_eq (VStr n) (networkVersion (w_prov w)))) eqn:Hch.
  - step. repeat split; auto.
  - step. repeat split; auto.
    apply orb_false_elim in Hch as [H1 H2].
    apply negb_false_iff, strict_eq_true in H1.
    apply negb_false_iff, strict_eq_true in H2.
    destruct w as [h [sw ic ac iu sa nv ci] web3 np]. cbn in *.
    unfold set_networkVersion, set_chainId. cbn. congruence.
Qed.

(** C2, as the code has it.  For valid parameters applied twice in
    succession, neither call throws or logs; the first call emits
    [chainChanged], [chainIdChanged] and [networkChanged] once each, in
    this order, when the pair differs from the stored one (as it always
    does while [chainId] is still [null]) and emits nothing when the
    stored pair is already this one; the second call emits nothing; both
    fields equal the pair after either call. *)
Theorem handleChainChanged_twice (info1 info2 : value) (c n : string) (w : world) :
  startsWith c "0x" = true →
  field (w_heap w) info1 "chainId" = VStr c →
  field (w_heap w) info1 "networkVersion" = VStr n →
  field (w_heap w) info2 "chainId" = VStr c →
  field (w_heap w) info2 "networkVersion" = VStr n →
  let r1 := _handleChainChanged info1 w in
  let r2 := _handleChainChanged info2 (final r1) in
  let changed := negb (strict_eq (VStr c) (chainId (w_prov w)))
                 || negb (strict_eq (VStr n) (networkVersion (w_prov w))) in
  result r1 = Ok tt ∧ result r2 = Ok tt
  ∧ trace r1 = (if changed
                then [AEmit "chainChanged" [VStr c]; AEmit "chainIdChanged" [VStr c];
                      AEmit "networkChanged" [VStr n]]
                else [])
  ∧ trace r2 = []
  ∧ (if strict_eq (chainId (w_prov w)) VNull then changed = true else True)
  ∧ chainId (w_prov (final r1)) = VStr c
  ∧ networkVersion (w_prov (final r1)) = VStr n
  ∧ chainId (w_prov (final r2)) = VStr c
  ∧ networkVersion (w_prov (final r2)) = VStr n.
Proof.
  intros Hc H1c H1n H2c H2n r1 r2 changed.
  destruct (handleChainChanged_valid info1 c n w Hc H1c H1n) as (Ho1 & Hh1 & Ht1 & Hp1).
  fold r1 in Ho1, Hh1, Ht1, Hp1.
  assert (H2c' : field (w_heap (final r1)) info2 "chainId" = VStr c) by by rewrite Hh1.
  assert (H2n' : field (w_heap (final r1)) info2 "networkVersion" = VStr n) by by rewrite Hh1.
  destruct (handleChainChanged_valid info2 c n (final r1) Hc H2c' H2n')
    as (Ho2 & Hh2 & Ht2 & Hp2).
  fold r2 in Ho2, Hh2, Ht2, Hp2.
  rewrite Hp1 in Ht2. cbn [set_networkVersion set_chainId chainId networkVersion] in Ht2.
  rewrite !strict_eq_str_refl in Ht2. cbn [negb orb] in Ht2.
  repeat split; auto.
  - subst changed. destruct (strict_eq (chainId (w_prov w)) VNull) eqn:E; [|done].
    apply strict_eq_true in E. by rewrite E.
  - by rewrite Hp1.
  - by rewrite Hp1.
  - by rewrite Hp2.
  - by rewrite Hp2.
Qed.

(** ** Synchronous emulation (C9) *)

(** The [net_version] case of [_sendSync]: nothing is forwarded, nothing
    changes in the provider, and the response is a new object
    [{id, jsonrpc, result}] with [result = this.networkVersion || null]. *)
Lemma sendSync_net_version_run (payload : value) (w : world) :
  field (w_heap w) payload "method" = VStr "net_version" →
  let r := _sendSync payload w in
  let l := fresh (dom (w_heap w)) in
  result r = Ok (VRef l)
  ∧ trace r = []
  ∧ w_prov (final r) = w_prov w
  ∧ w_heap (final r) =
      <[l := Cell KObject (list_to_map
               [("id", field (w_heap w) payload "id");
                ("jsonrpc", field (w_heap w) payload "jsonrpc");
                ("result", js_or (networkVersion (w_prov w)) VNull)])]> (w_heap w)
  ∧ field (w_heap (final r)) (VRef l) "result" = js_or (networkVersion (w_prov w)) VNull.
Proof.
  intros Hm r l. subst r.
  destruct (field_str_is_ref _ _ _ _ Hm) as (lp & -> & Hm').
  unfold _sendSync. run. rewrite Hm'. step. repeat split.
  subst l. rewrite field_ref, cell_at_insert_eq. step.
  by simplify_map_eq.
Qed.

(** C9, as the code has it.  The synchronous [net_version] answers [null]
    while [networkVersion] is still [null]; after [_handleChainChanged]
    has accepted a pair it answers the stored network version when that
    is a non-empty string, and [null] when the accepted network version
    is the empty string. *)
Theorem sendSync_net_version (payload info : value) (c n : string) (w0 w : world) :
  networkVersion (w_prov w0) = VNull →
  field (w_heap w0) payload "method" = VStr "net_version" →
  field (w_heap w) payload "method" = VStr "net_version" →
  startsWith c "0x" = true →
  field (w_heap w) info "chainId" = VStr c →
  field (w_heap w) info "networkVersion" = VStr n →
  let unsynced := _sendSync payload w0 in
  let synced := _handleChainChanged info w in
  let answered := _sendSync payload (final synced) in
  (∃ l, result unsynced = Ok (VRef l)
        ∧ field (w_heap (final unsynced)) (VRef l) "result" = VNull)
  ∧ result synced = Ok tt
  ∧ networkVersion (w_prov (final synced)) = VStr n
  ∧ ∃ l, result answered = Ok (VRef l)
         ∧ field (w_heap (final answered)) (VRef l) "result" =
             (if (n =? "")%string then VNull else VStr n).
Proof.
  intros Hnull Hm0 Hm Hc Hic Hin unsynced synced answered.
  destruct (sendSync_net_version_run payload w0 Hm0) as (Hr0 & _ & _ & _ & Hf0).
  destruct (handleChainChanged_valid info c n w Hc Hic Hin) as (Hos & Hhs & _ & Hps).
  fold synced in Hos, Hhs, Hps.
  assert (Hm1 : field (w_heap (final synced)) payload "method" = VStr "net_version")
    by by rewrite Hhs.
  destruct (sendSync_net_version_run payload (final synced) Hm1) as (Hr1 & _ & _ & _ & Hf1).
  repeat split.
  - eexists. split; [exact Hr0|]. unfold unsynced. rewrite Hf0, Hnull. reflexivity.
  - exact Hos.
  - by rewrite Hps.
  - eexists. split; [exact Hr1|]. unfold answered. rewrite Hf1, Hps.
    unfold js_or. cbn. by destruct (n =? "")%string.
Qed.

(** ** Deep equality of account lists *)

Lemma strict_eq_false (a b : value) : strict_eq a b = false → a ≠ VNaN → a ≠ b.
Proof.
  intros H Hnan ->. destruct b; cbn in H; try discriminate; try done.
  - by destruct b.
  - by rewrite Z.eqb_refl in H.
  - by rewrite String.eqb_refl in H.
  - by rewrite Pos.eqb_refl in H.
Qed.

(** Comparing with a primitive needs no nested call: the values are equal
    exactly when they are the same primitive. *)
Lemma dequal_at_primitive (d : nat) (h : gmap loc cell) (a b : value) :
  is_primitive b = true → dequal_at (S d) h a b = Some (bool_decide (a = b)).
Proof.
  intros Hb. cbn [dequal_at].
  destruct (strict_eq a b) eqn:E.
  - apply strict_eq_true in E. by rewrite bool_decide_eq_true_2.
  - destruct (decide (a = VNaN)) as [->|Hnan].
    + destruct b; try done; by rewrite bool_decide_eq_false_2.
    + rewrite bool_decide_eq_false_2 by by apply strict_eq_false.
      destruct a, b; try done.
Qed.

Lemma all_equal_primitive (d : nat) (h : gmap loc cell) (xs ys : list value) :
  length xs = length ys →
  Forall (fun v => is_primitive v = true) ys →
  all_equal (dequal_at (S d) h) xs ys = Some (bool_decide (xs = ys)).
Proof.
  revert ys. induction xs as [|x xs IH]; intros [|y ys] Hlen Hprim; try done.
  apply Forall_cons in Hprim as [Hy Hys]. cbn [all_equal].
  rewrite dequal_at_primitive by done.
  destruct (decide (x = y)) as [->|Hne].
  - rewrite bool_decide_eq_true_2 by done. rewrite IH by (auto; cbn in Hlen; lia).
    f_equal. apply bool_decide_ext. split; congruence.
  - rewrite !bool_decide_eq_false_2; [done| congruence |done].
Qed.

(** Two arrays of which the second holds only primitives (address strings,
    say) are deep-equal exactly when they have the same elements in the
    same order, whether or not they are the same array. *)
Lemma dequal_address_lists (h : gmap loc cell) (la lb : loc) (ea eb : list value) :
  cell_kind (cell_at h la) = KArray ea →
  cell_kind (cell_at h lb) = KArray eb →
  Forall (fun v => is_primitive v = true) eb →
  (1 ≤ stack_limit)%nat →
  dequal_result h (VRef la) (VRef lb) = Some (bool_decide (ea = eb)).
Proof.
  intros Ha Hb Hprim Hstack. unfold dequal_result. cbn [dequal_at].
  destruct (strict_eq (VRef la) (VRef lb)) eqn:E.
  - apply strict_eq_true in E. injection E as ->.
    rewrite Ha in Hb. injection Hb as ->. by rewrite bool_decide_eq_true_2.
  - rewrite Ha, Hb.
    destruct (length ea =? length eb)%nat eqn:Hlen; cbn [negb].
    + apply Nat.eqb_eq in Hlen.
      destruct stack_limit as [|d]; [lia|].
      rewrite all_equal_primitive.
      * f_equal. apply bool_decide_ext. split; [|congruence].
        intros H. apply (f_equal (@rev value)) in H. by rewrite !rev_involutive in H.
      * by rewrite !length_rev.
      * by apply Forall_rev.
    + apply Nat.eqb_neq in Hlen. rewrite bool_decide_eq_false_2; [done|].
      intros ->. done.
Qed.

(** The comparison of anything with an array of primitives terminates
    within one nested call, and with an empty array within none. *)
Lemma dequal_total_on_flat (h : gmap loc cell) (a : value) (lb : loc) (eb : list value) :
  cell_kind (cell_at h lb) = KArray eb →
  Forall (fun v => is_primitive v = true) eb →
  (1 ≤ stack_limit)%nat ∨ eb = [] →
  is_Some (dequal_result h a (VRef lb)).
Proof.
  intros Hb Hprim Hstack. unfold dequal_result. cbn [dequal_at].
  destruct (strict_eq a (VRef lb)); [done|].
  destruct a as [| |b|z| |s|la]; try done.
  rewrite Hb. destruct (cell_kind (cell_at h la)) as [|ea|]; try done.
  destruct (length ea =? length eb)%nat eqn:Hlen; cbn [negb]; [|done].
  apply Nat.eqb_eq in Hlen.
  destruct Hstack as [Hstack| ->].
  - destruct stack_limit as [|d]; [lia|].
    rewrite all_equal_primitive; [done| by rewrite !length_rev | by apply Forall_rev].
  - destruct ea; [|done]. done.
Qed.

(** Against a new empty array only an empty array compares equal. *)
Lemma dequal_empty_array (h : gmap loc cell) (a : value) (lb : loc) :
  cell_kind (cell_at h lb) = KArray [] →
  a ≠ VRef lb →
  dequal_result h a (VRef lb) = Some (is_empty_array h a).
Proof.
  intros Hb Hne. unfold dequal_result. cbn [dequal_at].
  destruct (strict_eq a (VRef lb)) eqn:E; [by apply strict_eq_true in E|].
  destruct a as [| |b|z| |s|la]; try done.
  rewrite Hb. cbn [is_empty_array].
  destruct (cell_kind (cell_at h la)) as [|[|x ea]|]; done.
Qed.

(** ** Accounts (C1, C6, C5) *)

(** One call of [_handleAccountsChanged], executed symbolically. *)
Lemma handleAccountsChanged_run (accounts : value) (isEthAccounts isInternal : bool)
      (w : world) :
  let h1 := applied_heap (w_heap w) accounts in
  let _accounts := applied_accounts (w_heap w) accounts in
  let this := w_prov w in
  let invalid := if Array_isArray (w_heap w) accounts then []
                 else [ALogError invalid_accounts_msg [accounts]] in
  _handleAccountsChanged accounts isEthAccounts isInternal w =
  match dequal_result h1 (state_accounts this) _accounts with
  | None =>
      Run (set_heap h1 w) invalid (Throw (RangeError "Maximum call stack size exceeded"))
  | Some same =>
      let p1 := if same then this else set_accounts _accounts this in
      let first := index h1 _accounts 0 in
      let p2 := if strict_eq (selectedAddress this) first then p1
                else set_selectedAddress (js_or first VNull) p1 in
      Run (set_prov p2 (set_heap h1 w))
          (invalid
           ++ (if same then []
               else (if isEthAccounts && negb (strict_eq (state_accounts this) VNull)
                        && negb isInternal
                     then [ALogError unexpected_accounts_msg [_accounts]] else [])
                    ++ [AEmit "accountsChanged" [_accounts]])
           ++ (if w_legacy_web3 w then [AWeb3DefaultAccount (selectedAddress p2)] else []))
          (Ok tt)
  end.
Proof.
  destruct w as [h this web3 np]. cbn [w_heap w_prov w_legacy_web3].
  unfold _handleAccountsChanged, applied_heap, applied_accounts. run.
  destruct (Array_isArray h accounts); step;
    (match goal with |- context [dequal_result ?a ?b ?c] =>
       destruct (dequal_result a b c) as [[|]|] end);
    step; try reflexivity;
    destruct isEthAccounts, isInternal, (strict_eq (state_accounts this) VNull);
    step;
    (match goal with |- context [strict_eq (selectedAddress this) ?x] =>
       destruct (strict_eq (selectedAddress this) x) end);
    step; destruct web3; step; reflexivity.
Qed.

Lemma applied_not_array (h : gmap loc cell) (accounts : value) :
  Array_isArray h accounts = false →
  array_elems (applied_heap h accounts) (applied_accounts h accounts) = [].
Proof.
  intros Hna. unfold applied_heap, applied_accounts. rewrite Hna.
  cbn. unfold cell_at. by rewrite lookup_insert_eq.
Qed.

Lemma applied_is_array (h : gmap loc cell) (accounts : value) :
  Array_isArray (applied_heap h accounts) (applied_accounts h accounts) = true.
Proof.
  unfold applied_heap, applied_accounts.
  destruct (Array_isArray h accounts) eqn:E; [done|].
  cbn. unfold cell_at. by rewrite lookup_insert_eq.
Qed.

(** [this.selectedAddress !== first] followed by the assignment of
    [first || null], from a state in which [selectedAddress] is [null] or
    truthy. *)
Lemma select_first (p : Provider) (first : value) :
  selected_ok p →
  (if strict_eq (selectedAddress p) first then selectedAddress p
   else js_or first VNull) = js_or first VNull.
Proof.
  intros Hok. destruct (strict_eq (selectedAddress p) first) eqn:E; [|done].
  apply strict_eq_true in E. unfold selected_ok in Hok. rewrite E in Hok.
  unfold js_or. rewrite E. destruct Hok as [-> | ->]; reflexivity.
Qed.

Lemma js_or_null_ok (v : value) : js_or v VNull = VNull ∨ truthy (js_or v VNull) = true.
Proof. unfold js_or. destruct (truthy v) eqn:E; auto. Qed.

Lemma preserves_id {A B} (f : Provider → B) (m : M A) :
  preserves (fun p => p) m → preserves f m.
Proof. intros H w. specialize (H w). cbn in H. by rewrite H. Qed.

Lemma handleChainChanged_selectedAddress (networkInfo : value) :
  preserves selectedAddress (_handleChainChanged networkInfo).
Proof. unfold _handleChainChanged, new_object. frame. Qed.

Lemma handleDisconnect_selectedAddress (streamName err : value) :
  preserves selectedAddress (_handleDisconnect streamName err).
Proof. unfold _handleDisconnect, new_object. frame. Qed.

Lemma isConnected_selectedAddress : preserves selectedAddress isConnected.
Proof. unfold isConnected. frame. Qed.

Lemma enable_selectedAddress : preserves selectedAddress enable.
Proof.
  unfold enable, new_object, new_array. frame.
Qed.

Lemma sendSync_selectedAddress (payload : value) :
  preserves selectedAddress (_sendSync payload).
Proof.
  unfold _sendSync, new_object, new_array. frame.
Qed.

Lemma send_selectedAddress (methodOrPayload callbackOrArgs : value) :
  preserves selectedAddress (send methodOrPayload callbackOrArgs).
Proof.
  unfold send, new_object, new_array. frame.
Qed.

(** Unlock-state changes touch [selectedAddress] only on the transition to
    locked, where they go through [_handleAccountsChanged]. *)
Lemma handleUnlockStateChanged_selectedAddress (isUnlocked : value) (w : world) :
  (isUnlocked = VBool false ∧ state_isUnlocked (w_prov w) = true)
  ∨ selectedAddress (w_prov (final (_handleUnlockStateChanged isUnlocked w)))
    = selectedAddress (w_prov w).
Proof.
  destruct isUnlocked as [| |b|z| |s|l]; try (by right).
  destruct b.
  - right. revert w. change (preserves selectedAddress (_handleUnlockStateChanged (VBool true))).
    unfold _handleUnlockStateChanged, new_object, new_array. frame.
  - destruct (state_isUnlocked (w_prov w)) eqn:E; [by left|right].
    unfold _handleUnlockStateChanged. run. by rewrite E.
Qed.

(** C1, as the code has it.  Whenever [_handleAccountsChanged] runs to
    completion (the deep comparison does not exhaust the stack), in a
    state where [selectedAddress] is [null] or truthy, [selectedAddress]
    afterwards is the first element of the applied array when the array
    is non-empty and that element is truthy, and [null] when the array is
    empty or its first element is falsy (the assignment is
    [_accounts[0] || null]); the state after the update, like the initial
    one, again has [selectedAddress] [null] or truthy.  No other
    operation assigns [selectedAddress]: the chain and disconnect
    handlers, [_rpcRequest], [request], [sendAsync], [send], [_sendSync],
    [enable] and [isConnected] leave it as it was, and so does
    [_handleUnlockStateChanged] except on the transition to locked, which
    calls [_handleAccountsChanged]. *)
Theorem selectedAddress_follows_accounts
        (accounts : value) (isEthAccounts isInternal : bool) (w : world) :
  selected_ok (w_prov w) →
  is_Some (dequal_result (applied_heap (w_heap w) accounts)
                         (state_accounts (w_prov w))
                         (applied_accounts (w_heap w) accounts)) →
  let r := _handleAccountsChanged accounts isEthAccounts isInternal w in
  result r = Ok tt
  ∧ selectedAddress (w_prov (final r)) =
      match array_elems (w_heap (final r)) (applied_accounts (w_heap w) accounts) with
      | [] => VNull
      | first :: _ => if truthy first then first else VNull
      end
  ∧ selected_ok (w_prov (final r))
  ∧ selected_ok initial_provider
  ∧ (∀ v, preserves selectedAddress (_handleChainChanged v))
  ∧ (∀ s e, preserves selectedAddress (_handleDisconnect s e))
  ∧ (∀ p c i, preserves selectedAddress (_rpcRequest p c i))
  ∧ (∀ a, preserves selectedAddress (request a))
  ∧ (∀ p c, preserves selectedAddress (sendAsync p c))
  ∧ (∀ m c, preserves selectedAddress (send m c))
  ∧ (∀ p, preserves selectedAddress (_sendSync p))
  ∧ preserves selectedAddress enable
  ∧ preserves selectedAddress isConnected
  ∧ (∀ v w', (v = VBool false ∧ state_isUnlocked (w_prov w') = true)
             ∨ selectedAddress (w_prov (final (_handleUnlockStateChanged v w')))
               = selectedAddress (w_prov w')).
Proof.
  intros Hok [same Hsame] r.
  assert (Hsel : result r = Ok tt
                 ∧ w_heap (final r) = applied_heap (w_heap w) accounts
                 ∧ selectedAddress (w_prov (final r)) =
                     js_or (index (applied_heap (w_heap w) accounts)
                                  (applied_accounts (w_heap w) accounts) 0) VNull).
  { subst r. rewrite handleAccountsChanged_run, Hsame. cbn.
    repeat split.
    set (first := index _ _ 0).
    rewrite <- (select_first (w_prov w) first Hok).
    destruct (strict_eq (selectedAddress (w_prov w)) first); by destruct same. }
  destruct Hsel as (Hres & Hheap & Hsel).
  split; [exact Hres|]. split; [|split].
  - rewrite Hsel, Hheap. unfold index.
    destruct (array_elems _ _) as [|first rest]; [reflexivity|].
    cbn. unfold js_or. by destruct (truthy first).
  - unfold selected_ok. rewrite Hsel. apply js_or_null_ok.
  - split; [by left|].
    split; [apply handleChainChanged_selectedAddress|].
    split; [apply handleDisconnect_selectedAddress|].
    split; [intros; apply preserves_id, rpcRequest_preserves|].
    split; [intros; apply preserves_id, request_preserves|].
    split; [intros; apply preserves_id, sendAsync_preserves|].
    split; [apply send_selectedAddress|].
    split; [apply sendSync_selectedAddress|].
    split; [apply enable_selectedAddress|].
    split; [apply isConnected_selectedAddress|].
    apply handleUnlockStateChanged_selectedAddress.
Qed.

(** C6.  When the accounts handler is given an array, it compares it with
    the stored accounts by [dequal].  If they are deep-equal the handler
    emits no [accountsChanged] and keeps the stored reference; if they
    differ it emits [accountsChanged] exactly once, with the new array,
    and stores it; if the comparison exhausts the stack the handler
    throws before emitting or storing anything.  So the event is emitted
    exactly when the comparison answers "different".  The comparison is
    by value: for two arrays whose elements are primitives (address
    strings), the same or distinct as objects, it answers "equal" exactly
    when they hold the same elements in the same order. *)
Theorem accountsChanged_iff_deep_difference
        (B : value) (isEthAccounts isInternal : bool) (w : world) :
  Array_isArray (w_heap w) B = true →
  let r := _handleAccountsChanged B isEthAccounts isInternal w in
  let A := state_accounts (w_prov w) in
  w_heap (final r) = w_heap w
  ∧ match dequal_result (w_heap w) A B with
    | Some true =>
        result r = Ok tt
        ∧ emissions "accountsChanged" (trace r) = []
        ∧ state_accounts (w_prov (final r)) = A
    | Some false =>
        result r = Ok tt
        ∧ emissions "accountsChanged" (trace r) = [[B]]
        ∧ state_accounts (w_prov (final r)) = B
    | None =>
        result r = Throw (RangeError "Maximum call stack size exceeded")
        ∧ emissions "accountsChanged" (trace r) = []
        ∧ state_accounts (w_prov (final r)) = A
    end
  ∧ (∀ la lb ea eb,
        A = VRef la → B = VRef lb →
        cell_kind (cell_at (w_heap w) la) = KArray ea →
        cell_kind (cell_at (w_heap w) lb) = KArray eb →
        Forall (fun v => is_primitive v = true) eb →
        (1 ≤ stack_limit)%nat →
        dequal_result (w_heap w) A B = Some (bool_decide (ea = eb))).
Proof.
  intros Harr r A. subst r A.
  rewrite handleAccountsChanged_run.
  unfold applied_heap, applied_accounts. rewrite Harr.
  split; [|split].
  - destruct (dequal_result _ _ _) as [[|]|]; by destruct w.
  - destruct (dequal_result _ _ _) as [[|]|]; step.
    + repeat split; [|by destruct (strict_eq _ _)].
      by destruct (w_legacy_web3 w).
    + repeat split; [|by destruct (strict_eq _ _)].
      destruct (isEthAccounts && _ && _), (w_legacy_web3 w); reflexivity.
    + done.
  - intros la lb ea eb -> -> Ha Hb Hprim Hstack.
    by apply dequal_address_lists.
Qed.

(** Locking is an accounts update like any other: the handler records the
    new unlock state and calls [_handleAccountsChanged] with a new empty
    array. *)
Lemma handleUnlockStateChanged_lock_run (w : world) :
  state_isUnlocked (w_prov w) = true →
  let l := fresh (dom (w_heap w)) in
  _handleUnlockStateChanged (VBool false) w
  = _handleAccountsChanged (VRef l) false false
      (set_heap (<[l := Cell (KArray []) ∅]> (w_heap w))
                (set_prov (set_isUnlocked false (w_prov w)) w)).
Proof.
  intros Hun l. subst l. unfold _handleUnlockStateChanged. run. rewrite Hun. step.
  unfold set_heap, set_prov. step.
  by destruct (_handleAccountsChanged _ _ _ _) as [w1 t1 [[]|e]].
Qed.

(** C5.  In a state where [isUnlocked] is [true] (with the stored accounts
    [null] or an array, and [selectedAddress] [null] or truthy),
    [_handleUnlockStateChanged(false)] returns normally with [isUnlocked]
    false, the stored accounts an array without elements and
    [selectedAddress] [null].  It does so by running
    [_handleAccountsChanged] on a new empty array, so the usual change
    detection applies: [accountsChanged] is emitted once, with the empty
    array, unless the stored accounts already were an empty array, in
    which case nothing is emitted and the stored array is kept. *)
Theorem lock_clears_accounts (w : world) :
  state_isUnlocked (w_prov w) = true →
  accounts_ok (w_heap w) (w_prov w) →
  selected_ok (w_prov w) →
  let r := _handleUnlockStateChanged (VBool false) w in
  let l := fresh (dom (w_heap w)) in
  let was_empty := is_empty_array (w_heap w) (state_accounts (w_prov w)) in
  r = _handleAccountsChanged (VRef l) false false
        (set_heap (<[l := Cell (KArray []) ∅]> (w_heap w))
                  (set_prov (set_isUnlocked false (w_prov w)) w))
  ∧ result r = Ok tt
  ∧ state_isUnlocked (w_prov (final r)) = false
  ∧ Array_isArray (w_heap (final r)) (state_accounts (w_prov (final r))) = true
  ∧ array_elems (w_heap (final r)) (state_accounts (w_prov (final r))) = []
  ∧ selectedAddress (w_prov (final r)) = VNull
  ∧ emissions "accountsChanged" (trace r) = (if was_empty then [] else [[VRef l]])
  ∧ state_accounts (w_prov (final r)) =
      (if was_empty then state_accounts (w_prov w) else VRef l).
Proof.
  intros Hun Hacc Hsel r l was_empty. subst r.
  split; [by apply handleUnlockStateChanged_lock_run|].
  rewrite handleUnlockStateChanged_lock_run by done. fold l.
  set (h1 := <[l := Cell (KArray []) ∅]> (w_heap w)).
  set (w1 := set_heap h1 (set_prov (set_isUnlocked false (w_prov w)) w)).
  assert (Hl : cell_at h1 l = Cell (KArray []) ∅) by apply cell_at_insert_eq.
  assert (Harr : Array_isArray h1 (VRef l) = true) by (cbn; by rewrite Hl).
  assert (Hne : state_accounts (w_prov w) ≠ VRef l).
  { intros E. destruct Hacc as [Hacc|Hacc]; [congruence|].
    rewrite E in Hacc. cbn in Hacc. subst l.
    by rewrite cell_at_fresh in Hacc. }
  assert (Hsame : is_empty_array h1 (state_accounts (w_prov w)) = was_empty).
  { subst was_empty. unfold is_empty_array.
    destruct (state_accounts (w_prov w)) as [| | | | | |la]; try done.
    subst h1. rewrite cell_at_insert_ne; [done|congruence]. }
  rewrite handleAccountsChanged_run.
  unfold applied_heap, applied_accounts.
  change (w_heap w1) with h1. rewrite Harr.
  change (w_prov w1) with (set_isUnlocked false (w_prov w)).
  change (w_legacy_web3 w1) with (w_legacy_web3 w).
  change (state_accounts (set_isUnlocked false (w_prov w)))
    with (state_accounts (w_prov w)).
  rewrite (dequal_empty_array h1 _ l) by (by rewrite ?Hl).
  rewrite Hsame. step.
  assert (Hfirst : index h1 (VRef l) 0 = VUndefined).
  { unfold index, array_elems. by rewrite Hl. }
  rewrite Hfirst.
  assert (Hnu : strict_eq (selectedAddress (w_prov w)) VUndefined = false).
  { destruct Hsel as [Hs|Hs]; destruct (selectedAddress (w_prov w)); done. }
  rewrite Hnu. step.
  subst was_empty.
  destruct (is_empty_array (w_heap w) (state_accounts (w_prov w))) eqn:Hwas; step.
  - assert (Hold : Array_isArray h1 (state_accounts (w_prov w)) = true
                   ∧ array_elems h1 (state_accounts (w_prov w)) = []).
    { unfold is_empty_array in Hsame.
      destruct (state_accounts (w_prov w)) as [| | | | | |la]; try done.
      cbn. destruct (cell_kind (cell_at h1 la)) as [|[|x ea]|]; done. }
    destruct Hold as [Ho1 Ho2].
    repeat split; auto. by destruct (w_legacy_web3 w).
  - repeat split; auto.
    + unfold array_elems. by rewrite Hl.
    + by destruct (w_legacy_web3 w).
Qed.

(** ** Requests (C10, C3) *)

(** [_rpcRequest] on a payload that is an object but not an array, and
    that can be tagged. *)
Lemma rpcRequest_run (l : loc) (callback : callback) (isInternal : bool) (w : world) :
  Array_isArray (w_heap w) (VRef l) = false →
  can_tag (w_heap w) l = true →
  let c := cell_at (w_heap w) l in
  let h' := if truthy (field (w_heap w) (VRef l) "jsonrpc") then w_heap w
            else <[l := MkCell (cell_kind c) (<["jsonrpc" := VStr "2.0"]> (cell_props c))
                               (cell_extensible c) (cell_readonly c)]>
                   (w_heap w) in
  let method := field (w_heap w) (VRef l) "method" in
  let cb := if strict_eq method (VStr "eth_accounts")
               || strict_eq method (VStr "eth_requestAccounts")
            then CbAccounts (VRef l) isInternal callback else callback in
  _rpcRequest (VRef l) callback isInternal w
  = Run (set_heap h' w) [AHandle (VRef l) cb] (Ok tt).
Proof.
  intros Harr Htag c h' method cb. subst c h' method cb.
  unfold can_tag in Htag. rewrite !field_ref in *.
  destruct w as [h this web3 np]. cbn [w_heap] in *.
  unfold _rpcRequest. run. rewrite Harr. step.
  destruct (truthy (default VUndefined (cell_props (cell_at h l) !! "jsonrpc"))); step.
  - clear Htag. by destruct (_ || _).
  - cbn [orb] in Htag. rewrite Htag. step.
    rewrite cell_at_insert_eq. step. rewrite lookup_insert_ne by done.
    by destruct (_ || _).
Qed.

(** [_rpcRequest] on an object that has no truthy [jsonrpc] and cannot be
    given one (a frozen request, say): the assignment of line 320 throws,
    and line 339 is never reached. *)
Lemma rpcRequest_untaggable (l : loc) (callback : callback) (isInternal : bool)
      (w : world) :
  Array_isArray (w_heap w) (VRef l) = false →
  can_tag (w_heap w) l = false →
  _rpcRequest (VRef l) callback isInternal w
  = Run w [] (Throw (TypeError not_writable_msg)).
Proof.
  intros Harr Htag. unfold can_tag in Htag. rewrite !field_ref in *.
  apply orb_false_elim in Htag as [Hj Hw].
  destruct w as [h this web3 np]. cbn [w_heap] in *.
  unfold _rpcRequest. run. rewrite Harr. step. rewrite Hj. step. by rewrite Hw.
Qed.

(** A new object literal can be tagged. *)
Lemma can_tag_new (h : gmap loc cell) (l : loc) (k : kind) (p : gmap string value) :
  can_tag (<[l := Cell k p]> h) l = true.
Proof.
  unfold can_tag, writable. rewrite cell_at_insert_eq. cbn.
  rewrite (bool_decide_eq_true_2 ("jsonrpc" ∉ ∅)) by set_solver.
  destruct (bool_decide _); apply orb_true_r.
Qed.

(** [_rpcRequest] on an array: forwarded as it is, with the caller's
    callback. *)
Lemma rpcRequest_batch (payload : value) (callback : callback) (isInternal : bool)
      (w : world) :
  Array_isArray (w_heap w) payload = true →
  _rpcRequest payload callback isInternal w = Run w [AHandle payload callback] (Ok tt).
Proof.
  intros Harr. unfold _rpcRequest. run. rewrite Harr. reflexivity.
Qed.


Lemma read_prop_field (h : gmap loc cell) (v : value) (k : string) :
  v ≠ VUndefined → v ≠ VNull → read_prop h v k = Ok (field h v k).
Proof. intros H1 H2. unfold field. by destruct v. Qed.

Lemma field_allocated (h : gmap loc cell) (l : loc) (k s : string) :
  field h (VRef l) k = VStr s → l ≠ fresh (dom h).
Proof.
  intros H ->. rewrite field_ref, cell_at_fresh in H. cbn in H.
  by rewrite lookup_empty in H.
Qed.

(** The closure [_rpcRequest] installs for the two account methods, run by
    the engine with [(err, res)] in world [w']: first the accounts update
    on [res.result || []], then the caller's callback in the world the
    update leaves; if the update throws, the callback is never reached. *)
Lemma invoke_accounts_run (l : loc) (callback : callback) (isInternal : bool)
      (m : string) (err res : value) (w' : world) :
  field (w_heap w') (VRef l) "method" = VStr m →
  res ≠ VUndefined → res ≠ VNull →
  let raw := field (w_heap w') res "result" in
  let u := bind (if truthy raw then ret raw else new_array [])
                (fun a => _handleAccountsChanged a (m =? "eth_accounts")%string
                                                 isInternal) w' in
  invoke (CbAccounts (VRef l) isInternal callback) err res w'
  = match result u with
    | Ok _ => let c := invoke callback err res (final u) in
              Run (final c) (trace u ++ trace c) (result c)
    | Throw e => Run (final u) (trace u) (Throw e)
    end.
Proof.
  intros Hm Hu Hn raw u. subst u raw.
  cbn [invoke]. run. rewrite (read_prop_field _ res) by done.
  destruct (truthy (field (w_heap w') res "result")); step.
  - rewrite field_ref in Hm. rewrite Hm. step.
    destruct (_handleAccountsChanged _ _ _ w') as [w1 t1 [[]|e]]; step; [|done].
    by destruct (invoke callback err res w1) as [w2 t2 o].
  - rewrite cell_at_insert_ne by (symmetry; by eapply field_allocated).
    rewrite field_ref in Hm. rewrite Hm. step.
    destruct (_handleAccountsChanged _ _ _ _) as [w1 t1 [[]|e]]; step; [|done].
    by destruct (invoke callback err res w1) as [w2 t2 o].
Qed.


(** The part of C3 the code keeps: every argument other than [null] that
    is not a plain object with a non-empty string [method] is rejected
    with an Invalid-Request error that carries the argument; nothing is
    forwarded, logged or changed. *)
Lemma request_rejects_invalid (args : value) (w : world) :
  args ≠ VNull →
  ¬ well_formed_request (w_heap w) args →
  ∃ msg, request args w = Run w [] (Ok (Rejected (InvalidRequest msg args))).
Proof.
  intros Hnull Hbad. unfold request. run.
  destruct args as [| |b|z| |s|l]; try congruence; step;
    try (by exists not_an_object_msg).
  unfold Array_isArray.
  destruct (cell_kind (cell_at (w_heap w) l)) as [|elems|] eqn:Hkind; step;
    try (by exists not_an_object_msg).
  exists bad_method_msg.
  destruct (default VUndefined (cell_props (cell_at (w_heap w) l) !! "method"))
    as [| |b|z| |m|lm] eqn:Hm; step; try reflexivity.
  - destruct (m =? "")%string eqn:Hempty; step; [reflexivity|].
    exfalso. apply Hbad. exists l, m. repeat split; auto.
    intros ->. discriminate.
  - by destruct (cell_kind (cell_at (w_heap w) lm)).
Qed.

(** A well-formed request: the argument is left alone; a new payload
    [{method, params}] gets the protocol tag and goes to the engine, with
    the accounts closure around the promise callback for the two account
    methods; the promise returned is the one that callback settles. *)
Lemma request_run (la : loc) (m : string) (w : world) :
  cell_kind (cell_at (w_heap w) la) = KObject →
  field (w_heap w) (VRef la) "method" = VStr m →
  m ≠ "" →
  let l := fresh (dom (w_heap w)) in
  let p := w_promises w in
  let payload :=
    Cell KObject (<["jsonrpc" := VStr "2.0"]>
                    (list_to_map [("method", VStr m);
                                  ("params", field (w_heap w) (VRef la) "params")])) in
  let cb := if strict_eq (VStr m) (VStr "eth_accounts")
               || strict_eq (VStr m) (VStr "eth_requestAccounts")
            then CbAccounts (VRef l) false (CbRpcPromise p true)
            else CbRpcPromise p true in
  request (VRef la) w
  = Run {| w_heap := <[l := payload]> (w_heap w); w_prov := w_prov w;
           w_legacy_web3 := w_legacy_web3 w; w_promises := S p |}
        [AHandle (VRef l) cb] (Ok (Created p)).
Proof.
  intros Hkind Hm Hne l p payload cb. subst l p payload cb.
  rewrite !field_ref in *.
  destruct w as [h this web3 np]. cbn [w_heap w_prov w_legacy_web3 w_promises] in *.
  unfold request. run. unfold Array_isArray. rewrite Hkind. step. rewrite Hm. step.
  assert (He : (m =? "")%string = false) by by apply String.eqb_neq.
  rewrite He. step.
  set (l := fresh (dom h)).
  set (c := Cell KObject _).
  assert (Harr : Array_isArray (<[l := c]> h) (VRef l) = false).
  { cbn. by rewrite cell_at_insert_eq. }
  match goal with
  | |- context [_rpcRequest (VRef l) ?k false ?w0] =>
      rewrite (rpcRequest_run l k false w0 Harr (can_tag_new _ _ _ _))
  end.
  step. rewrite !field_ref, cell_at_insert_eq. subst c. step.
  rewrite insert_insert_eq.
  by simplify_map_eq.
Qed.

(** C3 at [null].  [typeof null] is [object] and [null] is not an array,
    so the first guard lets it through and destructuring it throws: the
    promise is rejected with a TypeError, not with an Invalid-Request
    error carrying the argument.  The state is still untouched. *)
Theorem request_null_rejects_with_TypeError (w : world) :
  request VNull w
  = Run w [] (Ok (Rejected (TypeError "Cannot read properties of undefined or null")))
  ∧ ∀ msg data, result (request VNull w) ≠ Ok (Rejected (InvalidRequest msg data)).
Proof.
  split; [reflexivity|]. intros msg data. discriminate.
Qed.

(** ** Unlock state *)

Lemma handleUnlockStateChanged_same (b : bool) (w : world) :
  state_isUnlocked (w_prov w) = b →
  _handleUnlockStateChanged (VBool b) w = Run w [] (Ok tt).
Proof.
  intros Hb. unfold _handleUnlockStateChanged. run. rewrite Hb.
  destruct w, b; reflexivity.
Qed.

Lemma handleUnlockStateChanged_isUnlocked (b : bool) (w : world) :
  state_isUnlocked (w_prov (final (_handleUnlockStateChanged (VBool b) w))) = b.
Proof.
  destruct (Bool.eqb b (state_isUnlocked (w_prov w))) eqn:E.
  - apply Bool.eqb_prop in E. by rewrite handleUnlockStateChanged_same.
  - unfold _handleUnlockStateChanged.
    unfold bind at 1. cbv [get_prov]. rewrite E. cbn [negb when].
    unfold bind at 1. cbv [modify_prov].
    set (w1 := set_prov (set_isUnlocked b (w_prov w)) w).
    match goal with
    | |- context [(if b then ?m1 else ?m2) w1] =>
        assert (Hm : preserves state_isUnlocked (if b then m1 else m2))
    end.
    { destruct b; [apply preserves_try_noop|]; unfold new_object, new_array; frame. }
    specialize (Hm w1).
    match type of Hm with
    | context [?m w1] => destruct (m w1) as [w2 t2 o]
    end.
    exact Hm.
Qed.

(** X1.  [_handleUnlockStateChanged] never throws.  Given anything but a
    boolean it only logs one error and leaves the world as it is.  Given a
    boolean, [isUnlocked] holds it afterwards; when it already did, the call
    does nothing at all, so repeating a call never has an effect. *)
Theorem handleUnlockStateChanged_total (isUnlocked : value) (w : world) :
  let r := _handleUnlockStateChanged isUnlocked w in
  result r = Ok tt
  ∧ match isUnlocked with
    | VBool b =>
        state_isUnlocked (w_prov (final r)) = b
        ∧ (if Bool.eqb b (state_isUnlocked (w_prov w)) then r = Run w [] (Ok tt) else True)
        ∧ _handleUnlockStateChanged isUnlocked (final r) = Run (final r) [] (Ok tt)
    | _ => r = Run w [ALogError invalid_isUnlocked_msg []] (Ok tt)
    end.
Proof.
  intros r. subst r.
  destruct isUnlocked as [| |b|z| |s|l]; try (split; reflexivity).
  split.
  - destruct (Bool.eqb b (state_isUnlocked (w_prov w))) eqn:E.
    + apply Bool.eqb_prop in E. by rewrite handleUnlockStateChanged_same.
    + destruct b.
      * assert (Hun : state_isUnlocked (w_prov w) = false)
          by by destruct (state_isUnlocked (w_prov w)).
        unfold _handleUnlockStateChanged. run. rewrite Hun. step.
        by destruct (_rpcRequest _ _ _ _) as [w2 t2 o].
      * assert (Hun : state_isUnlocked (w_prov w) = true)
          by by destruct (state_isUnlocked (w_prov w)).
        rewrite (handleUnlockStateChanged_lock_run w Hun), handleAccountsChanged_run.
        set (l := fresh (dom (w_heap w))).
        set (w1 := set_heap _ _).
        assert (Hl : cell_kind (cell_at (w_heap w1) l) = KArray [])
          by (cbn; by rewrite cell_at_insert_eq).
        assert (Harr : Array_isArray (w_heap w1) (VRef l) = true) by (cbn in *; by rewrite Hl).
        unfold applied_heap, applied_accounts. rewrite Harr.
        destruct (dequal_total_on_flat (w_heap w1) (state_accounts (w_prov w1)) l []
                    Hl (Forall_nil_2 _) (or_intror eq_refl)) as [same ->].
        reflexivity.
  - split; [apply handleUnlockStateChanged_isUnlocked|]. split.
    + destruct (Bool.eqb b (state_isUnlocked (w_prov w))) eqn:E; [|done].
      apply Bool.eqb_prop in E. by rewrite handleUnlockStateChanged_same.
    + apply handleUnlockStateChanged_same, handleUnlockStateChanged_isUnlocked.
Qed.

(** X2.  Unlocking (a transition of [isUnlocked] from false to true) emits
    nothing and leaves accounts and [selectedAddress] alone: it only hands
    the engine a new request [{method: "eth_accounts", params: [],
    jsonrpc: "2.0"}] whose callback is the accounts closure, flagged
    internal, around the no-op callback. *)
Theorem unlock_requests_accounts (w : world) :
  state_isUnlocked (w_prov w) = false →
  let r := _handleUnlockStateChanged (VBool true) w in
  let la := fresh (dom (w_heap w)) in
  let h1 := <[la := Cell (KArray []) ∅]> (w_heap w) in
  let lp := fresh (dom h1) in
  result r = Ok tt
  ∧ trace r = [AHandle (VRef lp) (CbAccounts (VRef lp) true CbNOOP)]
  ∧ w_prov (final r) = set_isUnlocked true (w_prov w)
  ∧ w_heap (final r) =
      <[lp := Cell KObject (<["jsonrpc" := VStr "2.0"]>
                              (list_to_map [("method", VStr "eth_accounts");
                                            ("params", VRef la)]))]> h1.
Proof.
  intros Hun r la h1 lp. subst r.
  destruct w as [h this web3 np]. cbn [w_heap w_prov] in *.
  unfold _handleUnlockStateChanged. run. rewrite Hun. step.
  fold la. fold h1. fold lp.
  set (c := Cell KObject _).
  assert (Harr : Array_isArray (<[lp := c]> h1) (VRef lp) = false).
  { cbn. by rewrite cell_at_insert_eq. }
  match goal with
  | |- context [_rpcRequest (VRef lp) CbNOOP true ?w0] =>
      rewrite (rpcRequest_run lp CbNOOP true w0 Harr (can_tag_new _ _ _ _))
  end.
  step. rewrite !field_ref, cell_at_insert_eq. subst c. step.
  rewrite insert_insert_eq.
  replace (<["method":=VStr "eth_accounts"]> (<["params":=VRef la]> ∅) !! "jsonrpc")
    with (@None value) by by simplify_map_eq.
  replace (<["method":=VStr "eth_accounts"]> (<["params":=VRef la]> ∅) !! "method")
    with (Some (VStr "eth_accounts")) by by simplify_map_eq.
  step. repeat split.
Qed.

(** ** Updates that empty the accounts *)

(** An update whose applied array has no elements: a new [[]] put in the
    place of an invalid argument, or an empty array that was passed. *)
Lemma handleAccountsChanged_empty (accounts : value) (isEthAccounts isInternal : bool)
      (w : world) :
  array_elems (applied_heap (w_heap w) accounts) (applied_accounts (w_heap w) accounts) = [] →
  state_accounts (w_prov w) ≠ applied_accounts (w_heap w) accounts →
  selected_ok (w_prov w) →
  let h1 := applied_heap (w_heap w) accounts in
  let _accounts := applied_accounts (w_heap w) accounts in
  let was_empty := is_empty_array h1 (state_accounts (w_prov w)) in
  let r := _handleAccountsChanged accounts isEthAccounts isInternal w in
  result r = Ok tt
  ∧ w_heap (final r) = h1
  ∧ state_accounts (w_prov (final r)) =
      (if was_empty then state_accounts (w_prov w) else _accounts)
  ∧ array_elems h1 (state_accounts (w_prov (final r))) = []
  ∧ selectedAddress (w_prov (final r)) = VNull
  ∧ emissions "accountsChanged" (trace r) = (if was_empty then [] else [[_accounts]]).
Proof.
  intros Hel Hne Hsel h1 _accounts was_empty r. subst r.
  pose proof (applied_is_array (w_heap w) accounts) as Harr.
  fold h1 in Harr, Hel. fold _accounts in Harr, Hel, Hne.
  rewrite handleAccountsChanged_run. fold h1. fold _accounts.
  destruct _accounts as [| | | | | |l] eqn:Hacc; try discriminate.
  assert (Hl : cell_kind (cell_at h1 l) = KArray []).
  { cbn in Harr, Hel. by destruct (cell_kind (cell_at h1 l)); subst. }
  rewrite (dequal_empty_array h1 _ l Hl Hne). fold was_empty. cbv zeta.
  assert (Hfirst : index h1 (VRef l) 0 = VUndefined).
  { unfold index. by rewrite Hel. }
  rewrite Hfirst.
  assert (Hnu : strict_eq (selectedAddress (w_prov w)) VUndefined = false).
  { destruct Hsel as [Hs|Hs]; destruct (selectedAddress (w_prov w)); done. }
  rewrite Hnu. step.
  destruct was_empty eqn:Hwas; step.
  - assert (Hold : array_elems h1 (state_accounts (w_prov w)) = []).
    { subst was_empty. unfold is_empty_array in Hwas.
      destruct (state_accounts (w_prov w)) as [| | | | | |la]; try done.
      cbn. by destruct (cell_kind (cell_at h1 la)) as [|[|x ea]|]. }
    repeat split; auto.
    destruct (Array_isArray (w_heap w) accounts); by destruct (w_legacy_web3 w).
  - repeat split; auto.
    destruct (Array_isArray (w_heap w) accounts), (isEthAccounts && _ && _),
      (w_legacy_web3 w); reflexivity.
Qed.

(** X3.  Accounts that are not an array count as no accounts.  In a state
    where the stored accounts are [null] or an array and [selectedAddress]
    is [null] or truthy, the handler does not throw: it first logs the
    invalid value, then applies a new empty array, so that afterwards the
    stored accounts are empty and [selectedAddress] is [null];
    [accountsChanged] is emitted, with the new empty array, unless the
    stored accounts already were an empty array. *)
Theorem invalid_accounts_count_as_none
        (accounts : value) (isEthAccounts isInternal : bool) (w : world) :
  Array_isArray (w_heap w) accounts = false →
  accounts_ok (w_heap w) (w_prov w) →
  selected_ok (w_prov w) →
  let r := _handleAccountsChanged accounts isEthAccounts isInternal w in
  let l := fresh (dom (w_heap w)) in
  let was_empty := is_empty_array (w_heap w) (state_accounts (w_prov w)) in
  result r = Ok tt
  ∧ (∃ rest, trace r = ALogError invalid_accounts_msg [accounts] :: rest)
  ∧ w_heap (final r) = <[l := Cell (KArray []) ∅]> (w_heap w)
  ∧ array_elems (w_heap (final r)) (state_accounts (w_prov (final r))) = []
  ∧ selectedAddress (w_prov (final r)) = VNull
  ∧ emissions "accountsChanged" (trace r) = (if was_empty then [] else [[VRef l]]).
Proof.
  intros Hna Hacc Hsel r l was_empty.
  assert (Hne : state_accounts (w_prov w) ≠ applied_accounts (w_heap w) accounts).
  { unfold applied_accounts. rewrite Hna. intros E.
    destruct Hacc as [Hacc|Hacc]; [congruence|].
    rewrite E in Hacc. cbn in Hacc. by rewrite cell_at_fresh in Hacc. }
  destruct (handleAccountsChanged_empty accounts isEthAccounts isInternal w
              (applied_not_array _ _ Hna) Hne Hsel) as (Hr & Hh & Ha & He & Hs & Hev).
  fold r in Hr, Hh, Ha, He, Hs, Hev.
  assert (Hwas : is_empty_array (applied_heap (w_heap w) accounts)
                                (state_accounts (w_prov w)) = was_empty).
  { subst was_empty. unfold applied_heap, applied_accounts in *. rewrite Hna in *.
    unfold is_empty_array.
    destruct (state_accounts (w_prov w)) as [| | | | | |la]; try done.
    rewrite cell_at_insert_ne; [done|congruence]. }
  rewrite Hwas in Hev.
  unfold applied_heap, applied_accounts in *. rewrite Hna in *.
  repeat split; auto.
  - subst r. rewrite handleAccountsChanged_run.
    unfold applied_heap, applied_accounts. rewrite Hna.
    destruct (dequal_result _ _ _) as [same|]; step; eauto.
  - by rewrite Hh.
Qed.

(** X4.  A response without a result empties the accounts.  When the engine
    answers [eth_accounts] or [eth_requestAccounts] with a response whose
    [result] is missing or falsy (an error response), the closure applies a
    new empty array before it calls the caller's callback: the stored
    accounts are empty and [selectedAddress] is [null] by then, and
    [accountsChanged] was emitted unless the accounts already were empty. *)
Theorem failed_accounts_request_clears_accounts
        (l : loc) (callback : callback) (isInternal : bool) (m : string)
        (err res : value) (w : world) :
  field (w_heap w) (VRef l) "method" = VStr m →
  res ≠ VUndefined → res ≠ VNull →
  truthy (field (w_heap w) res "result") = false →
  accounts_ok (w_heap w) (w_prov w) →
  selected_ok (w_prov w) →
  let lf := fresh (dom (w_heap w)) in
  let w1 := set_heap (<[lf := Cell (KArray []) ∅]> (w_heap w)) w in
  let u := _handleAccountsChanged (VRef lf) (m =? "eth_accounts")%string isInternal w1 in
  let c := invoke callback err res (final u) in
  let was_empty := is_empty_array (w_heap w) (state_accounts (w_prov w)) in
  invoke (CbAccounts (VRef l) isInternal callback) err res w
  = Run (final c) (trace u ++ trace c) (result c)
  ∧ array_elems (w_heap (final u)) (state_accounts (w_prov (final u))) = []
  ∧ selectedAddress (w_prov (final u)) = VNull
  ∧ emissions "accountsChanged" (trace u) = (if was_empty then [] else [[VRef lf]]).
Proof.
  intros Hm Hu Hn Hfalsy Hacc Hsel lf w1 u c was_empty.
  assert (Hl : cell_at (w_heap w1) lf = Cell (KArray []) ∅) by apply cell_at_insert_eq.
  assert (Harr : Array_isArray (w_heap w1) (VRef lf) = true) by (cbn in *; by rewrite Hl).
  assert (Happ : applied_accounts (w_heap w1) (VRef lf) = VRef lf)
    by (unfold applied_accounts; by rewrite Harr).
  assert (Hheap : applied_heap (w_heap w1) (VRef lf) = w_heap w1)
    by (unfold applied_heap; by rewrite Harr).
  assert (Hne : state_accounts (w_prov w1) ≠ applied_accounts (w_heap w1) (VRef lf)).
  { rewrite Happ. intros E. destruct Hacc as [Hacc|Hacc]; [cbn in E; congruence|].
    cbn in E. rewrite E in Hacc. cbn in Hacc. subst lf. by rewrite cell_at_fresh in Hacc. }
  assert (Hel : array_elems (applied_heap (w_heap w1) (VRef lf))
                            (applied_accounts (w_heap w1) (VRef lf)) = []).
  { rewrite Happ, Hheap. unfold array_elems. by rewrite Hl. }
  destruct (handleAccountsChanged_empty (VRef lf) (m =? "eth_accounts")%string isInternal w1
              Hel Hne Hsel) as (Hr & Hh & _ & He & Hs & Hev).
  fold u in Hr, Hh, He, Hs, Hev. rewrite Happ, Hheap in *.
  assert (Hwas : is_empty_array (w_heap w1) (state_accounts (w_prov w1)) = was_empty).
  { subst was_empty. unfold is_empty_array. cbn [w_prov w1 set_heap].
    destruct (state_accounts (w_prov w)) as [| | | | | |la] eqn:Ea; try done.
    cbn. rewrite cell_at_insert_ne; [done|]. intros ->. apply Hne. exact Ea. }
  rewrite Hwas in Hev.
  split; [|by rewrite Hh].
  rewrite (invoke_accounts_run l callback isInternal m err res w Hm Hu Hn).
  cbv zeta. rewrite Hfalsy.
  assert (Hrun : bind (new_array [])
                   (fun a => _handleAccountsChanged a (m =? "eth_accounts")%string isInternal) w
                 = u).
  { unfold bind, new_array, alloc. fold lf. fold w1. fold u. by destruct u. }
  rewrite Hrun, Hr. reflexivity.
Qed.

(** X5.  The integrity error of lines 384-389.  For an array argument, the
    handler logs that [eth_accounts] unexpectedly updated the accounts
    exactly when the update comes from [eth_accounts], is not internal, the
    accounts were already known (not [null]) and the comparison finds a
    difference; no other error is logged.  Whenever the arrays differ the
    new one is stored and [accountsChanged] emitted, anomaly or not: the
    refresh after unlocking (internal) and [eth_requestAccounts] update
    silently. *)
Theorem accounts_anomaly_logged
        (B : value) (isEthAccounts isInternal : bool) (w : world) :
  Array_isArray (w_heap w) B = true →
  let r := _handleAccountsChanged B isEthAccounts isInternal w in
  let A := state_accounts (w_prov w) in
  let differs := bool_decide (dequal_result (w_heap w) A B = Some false) in
  let anomaly := isEthAccounts && negb (strict_eq A VNull) && negb isInternal && differs in
  logged_errors (trace r) = (if anomaly then [(unexpected_accounts_msg, [B])] else [])
  ∧ (if differs
     then state_accounts (w_prov (final r)) = B
          ∧ emissions "accountsChanged" (trace r) = [[B]]
     else True).
Proof.
  intros Harr r A differs anomaly. subst r anomaly differs.
  rewrite handleAccountsChanged_run.
  unfold applied_heap, applied_accounts. rewrite Harr. fold A.
  destruct (dequal_result (w_heap w) A B) as [[|]|]; step.
  - rewrite bool_decide_eq_false_2 by done. rewrite !andb_false_r.
    split; [|done]. by destruct (w_legacy_web3 w).
  - rewrite bool_decide_eq_true_2 by done. rewrite andb_true_r.
    destruct (isEthAccounts && negb (strict_eq A VNull) && negb isInternal);
      destruct (strict_eq (selectedAddress (w_prov w)) _), (w_legacy_web3 w);
      repeat split.
  - rewrite bool_decide_eq_false_2 by done. rewrite !andb_false_r. done.
Qed.

(** ** Synchronous emulation, the other methods *)

Lemma strict_eq_neq (a b : value) : a ≠ b → strict_eq a b = false.
Proof.
  intros Hne. destruct (strict_eq a b) eqn:E; [|done].
  by apply strict_eq_true in E.
Qed.

Lemma fresh_insert_ne (h : gmap loc cell) (l : loc) (c : cell) :
  fresh (dom (<[l := c]> h)) ≠ l.
Proof.
  intros E. pose proof (is_fresh (dom (<[l := c]> h))) as Hf.
  rewrite E in Hf. apply Hf. rewrite dom_insert_L. set_solver.
Qed.

Lemma response_id (i j r : value) :
  (list_to_map [("id", i); ("jsonrpc", j); ("result", r)] : gmap string value) !! "id"
  = Some i.
Proof. cbn. by simplify_map_eq. Qed.

Lemma response_jsonrpc (i j r : value) :
  (list_to_map [("id", i); ("jsonrpc", j); ("result", r)] : gmap string value) !! "jsonrpc"
  = Some j.
Proof. cbn. by simplify_map_eq. Qed.

Lemma response_result (i j r : value) :
  (list_to_map [("id", i); ("jsonrpc", j); ("result", r)] : gmap string value) !! "result"
  = Some r.
Proof. cbn. by simplify_map_eq. Qed.

(** X6.  The synchronous [eth_coinbase] answers [selectedAddress] itself and
    the synchronous [eth_accounts] an array that holds [selectedAddress], or
    nothing when it is [null] (in a state where [selectedAddress] is [null]
    or truthy).  Neither forwards anything to the engine, logs, emits or
    changes the provider; the answer echoes the payload's [id] and
    [jsonrpc]. *)
Theorem sendSync_accounts_and_coinbase (payload : value) (m : string) (w : world) :
  selected_ok (w_prov w) →
  field (w_heap w) payload "method" = VStr m →
  m = "eth_accounts" ∨ m = "eth_coinbase" →
  let r := _sendSync payload w in
  let selected := selectedAddress (w_prov w) in
  trace r = []
  ∧ w_prov (final r) = w_prov w
  ∧ ∃ l, result r = Ok (VRef l)
         ∧ field (w_heap (final r)) (VRef l) "id" = field (w_heap w) payload "id"
         ∧ field (w_heap (final r)) (VRef l) "jsonrpc" = field (w_heap w) payload "jsonrpc"
         ∧ let answer := field (w_heap (final r)) (VRef l) "result" in
           if (m =? "eth_coinbase")%string then answer = selected
           else Array_isArray (w_heap (final r)) answer = true
                ∧ array_elems (w_heap (final r)) answer
                  = (if strict_eq selected VNull then [] else [selected]).
Proof.
  intros Hsel Hm Hmethod r selected. subst r selected.
  destruct (field_str_is_ref _ _ _ _ Hm) as (lp & -> & Hm').
  rewrite !field_ref.
  unfold _sendSync. run. rewrite Hm'.
  destruct Hmethod as [-> | ->]; step.
  - (* eth_accounts *)
    assert (Hlp : ∀ c, cell_at (<[fresh (dom (w_heap w)) := c]> (w_heap w)) lp
                       = cell_at (w_heap w) lp).
    { intros c. apply cell_at_insert_ne. intros E. rewrite <- E in Hm'.
      rewrite cell_at_fresh in Hm'. cbn in Hm'. by rewrite lookup_empty in Hm'. }
    assert (Hes : (if strict_eq (selectedAddress (w_prov w)) VNull
                   then [] else [selectedAddress (w_prov w)])
                  = (if truthy (selectedAddress (w_prov w))
                     then [selectedAddress (w_prov w)] else [])).
    { destruct Hsel as [E|E]; rewrite E; [reflexivity|].
      by destruct (selectedAddress (w_prov w)). }
    rewrite Hes.
    destruct (truthy (selectedAddress (w_prov w))) eqn:Ht; step.
    all: repeat split; eexists; (split; [reflexivity|]).
    all: rewrite !field_ref, !cell_at_insert_eq, !Hlp; step.
    all: rewrite response_id, response_jsonrpc, response_result.
    all: step; unfold Array_isArray, array_elems, id; step.
    all: rewrite cell_at_insert_ne by apply fresh_insert_ne.
    all: rewrite cell_at_insert_eq; step; repeat split.
  - (* eth_coinbase *)
    repeat split. eexists. split; [reflexivity|].
    rewrite !field_ref, !cell_at_insert_eq. step.
    rewrite response_id, response_jsonrpc, response_result.
    step. unfold id. repeat split.
    destruct Hsel as [E|E]; unfold js_or; by rewrite E.
Qed.


(** X8.  The synchronous [eth_uninstallFilter] is fire and forget: for an
    object payload whose [jsonrpc] is truthy or can be assigned it forwards
    the payload itself to the engine with the no-op callback and answers
    [true] at once.  The forwarding has tagged the payload by then, so the
    answer's [jsonrpc] is the payload's own when that was truthy and [2.0]
    otherwise; its [id] is the payload's.  For a payload that cannot be
    tagged (a frozen object without [jsonrpc]) the call throws the
    TypeError of the assignment: nothing is forwarded or answered. *)
Theorem sendSync_uninstallFilter (l : loc) (w : world) :
  Array_isArray (w_heap w) (VRef l) = false →
  field (w_heap w) (VRef l) "method" = VStr "eth_uninstallFilter" →
  let r := _sendSync (VRef l) w in
  let jsonrpc := field (w_heap w) (VRef l) "jsonrpc" in
  if can_tag (w_heap w) l
  then trace r = [AHandle (VRef l) CbNOOP]
       ∧ w_prov (final r) = w_prov w
       ∧ ∃ lr, result r = Ok (VRef lr)
               ∧ field (w_heap (final r)) (VRef lr) "result" = VBool true
               ∧ field (w_heap (final r)) (VRef lr) "id" = field (w_heap w) (VRef l) "id"
               ∧ field (w_heap (final r)) (VRef lr) "jsonrpc"
                 = (if truthy jsonrpc then jsonrpc else VStr "2.0")
  else r = Run w [] (Throw (TypeError not_writable_msg)).
Proof.
  intros Harr Hm r jsonrpc. subst r jsonrpc.
  destruct (can_tag (w_heap w) l) eqn:Htag.
  - pose proof (rpcRequest_run l CbNOOP false w Harr Htag) as Hrun. cbv zeta in Hrun.
    rewrite Hm in Hrun.
    rewrite !field_ref in *.
    unfold _sendSync. run. rewrite Hm. step.
    rewrite Hrun. step.
    destruct (truthy (default VUndefined (cell_props (cell_at (w_heap w) l) !! "jsonrpc")))
      eqn:Hj; step.
    + repeat split. eexists. split; [reflexivity|].
      rewrite !field_ref, !cell_at_insert_eq. step.
      rewrite response_id, response_jsonrpc, response_result. by unfold id.
    + repeat split. eexists. split; [reflexivity|].
      rewrite !field_ref, !cell_at_insert_eq. step.
      rewrite response_id, response_jsonrpc, response_result. unfold id.
      rewrite lookup_insert_eq, lookup_insert_ne by done. by step.
  - pose proof (rpcRequest_untaggable l CbNOOP false w Harr Htag) as Hrun.
    rewrite !field_ref in *.
    unfold _sendSync. run. rewrite Hm. step.
    by rewrite Hrun.
Qed.

(** ** Payloads that are not objects, and batches *)

(** X9.  A payload that is a primitive (a method name passed where the
    request object belongs, [null], [undefined]) makes [_rpcRequest] throw a
    TypeError before anything reaches the engine; [sendAsync] lets the
    exception escape to its caller, whose callback is never called. *)
Theorem rpcRequest_primitive_throws
        (payload : value) (callback : callback) (isInternal : bool) (w : world) :
  is_primitive payload = true →
  ∃ msg, _rpcRequest payload callback isInternal w = Run w [] (Throw (TypeError msg))
         ∧ ∀ f, sendAsync payload f w = Run w [] (Throw (TypeError msg)).
Proof.
  intros Hprim. unfold sendAsync, _rpcRequest. run.
  destruct payload; try discriminate; step; eexists; split; reflexivity.
Qed.

(** X10.  [requestBatch] rejects everything that is not an array, [null]
    and [undefined] included, with an Invalid-Request error that carries the
    argument, and touches nothing.  An array is handed to the engine as it
    is, with the promise's own callback: no request in it is tagged or
    copied, and no accounts closure is installed, whatever methods the batch
    names. *)
Theorem requestBatch_forwards_untouched (requests : value) (w : world) :
  let r := requestBatch requests w in
  let p := w_promises w in
  w_heap (final r) = w_heap w
  ∧ w_prov (final r) = w_prov w
  ∧ (if Array_isArray (w_heap w) requests
     then result r = Ok (Created p)
          ∧ trace r = [AHandle requests (CbRpcPromise p true)]
     else r = Run w [] (Ok (Rejected (InvalidRequest batch_not_an_array_msg requests)))).
Proof.
  intros r p. subst r p. unfold requestBatch. run.
  destruct (Array_isArray (w_heap w) requests) eqn:Harr; step; [|done].
  match goal with
  | |- context [_rpcRequest requests ?k false ?w0] =>
      rewrite (rpcRequest_batch requests k false w0 Harr)
  end.
  done.
Qed.

(** ** The deprecated entry points *)

(** X11.  [send] with a method name and a second argument that is truthy
    but not an array (a callback, say) matches neither of its asynchronous
    forms: it falls through to the synchronous path with the string as
    payload and throws the unsupported-method error for [undefined].
    Nothing reaches the engine; only the deprecation warning may have been
    logged. *)
Theorem send_method_with_callback_throws (method : string) (callbackOrArgs : value)
        (w : world) :
  truthy callbackOrArgs = true →
  Array_isArray (w_heap w) callbackOrArgs = false →
  let r := send (VStr method) callbackOrArgs w in
  result r = Throw (JsError (errors_unsupportedSync messages VUndefined))
  ∧ trace r = (if sw_send (sentWarnings (w_prov w)) then []
               else [ALogWarn (warnings_sendDeprecation messages)])
  ∧ w_heap (final r) = w_heap w.
Proof.
  intros Ht Harr r. subst r. unfold send. run.
  destruct (sw_send (sentWarnings (w_prov w))); step; rewrite Ht, Harr; step;
    repeat split.
Qed.

(** X12.  [send] with a method name and parameters that are an array or
    falsy builds the request [{method, params, jsonrpc: "2.0"}] and returns
    a promise for the engine's whole response (the callback does not unwrap
    the result); for the two account methods the accounts closure is put
    around that callback. *)
Theorem send_method_returns_promise (method : string) (callbackOrArgs : value)
        (w : world) :
  truthy callbackOrArgs = false ∨ Array_isArray (w_heap w) callbackOrArgs = true →
  let r := send (VStr method) callbackOrArgs w in
  let p := w_promises w in
  let l := fresh (dom (w_heap w)) in
  let settle := CbRpcPromise p false in
  let cb := if strict_eq (VStr method) (VStr "eth_accounts")
               || strict_eq (VStr method) (VStr "eth_requestAccounts")
            then CbAccounts (VRef l) false settle else settle in
  result r = Ok (SentPromise (Created p))
  ∧ trace r = ((if sw_send (sentWarnings (w_prov w)) then []
                else [ALogWarn (warnings_sendDeprecation messages)])
               ++ [AHandle (VRef l) cb])%list
  ∧ w_heap (final r) =
      <[l := Cell KObject (<["jsonrpc" := VStr "2.0"]>
                             (list_to_map [("method", VStr method);
                                           ("params", callbackOrArgs)]))]> (w_heap w).
Proof.
  destruct w as [h this web3 np]. cbn [w_heap w_prov w_promises].
  intros Hargs. set (l := fresh (dom h)).
  assert (Hcond : negb (truthy callbackOrArgs) || Array_isArray h callbackOrArgs = true).
  { destruct Hargs as [-> | ->]; [reflexivity|apply orb_true_r]. }
  set (c := Cell KObject (list_to_map [("method", VStr method); ("params", callbackOrArgs)])).
  assert (Harr : Array_isArray (<[l := c]> h) (VRef l) = false).
  { cbn. by rewrite cell_at_insert_eq. }
  assert (Hj : field (<[l := c]> h) (VRef l) "jsonrpc" = VUndefined).
  { rewrite field_ref, cell_at_insert_eq. subst c. cbn. by simplify_map_eq. }
  assert (Hmeth : field (<[l := c]> h) (VRef l) "method" = VStr method).
  { rewrite field_ref, cell_at_insert_eq. subst c. cbn. by simplify_map_eq. }
  unfold send. run.
  destruct (sw_send (sentWarnings this)); step; rewrite Hcond; step; fold l; fold c;
    (match goal with
     | |- context [_rpcRequest (VRef l) ?k false ?w0] =>
         rewrite (rpcRequest_run l k false w0 Harr (can_tag_new _ _ _ _))
     end);
    step; rewrite Hj, Hmeth; step;
    rewrite cell_at_insert_eq, insert_insert_eq; subst c; step;
    by destruct (_ || _).
Qed.

(** X13.  [enable] never throws and never rejects on its own: it returns a
    new promise and hands the engine the request
    [{method: "eth_requestAccounts", params: [], jsonrpc: "2.0"}] with the
    accounts closure (not internal) around the promise's callback, so the
    accounts are updated before the promise settles.  It changes nothing of
    the provider but the flag of its deprecation warning. *)
Theorem enable_requests_accounts (w : world) :
  let r := enable w in
  let p := w_promises w in
  let la := fresh (dom (w_heap w)) in
  let h1 := <[la := Cell (KArray []) ∅]> (w_heap w) in
  let lp := fresh (dom h1) in
  result r = Ok (Created p)
  ∧ trace r = ((if sw_enable (sentWarnings (w_prov w)) then []
                else [ALogWarn (warnings_enableDeprecation messages)])
               ++ [AHandle (VRef lp) (CbAccounts (VRef lp) false (CbRpcPromise p true))])%list
  ∧ w_heap (final r) =
      <[lp := Cell KObject (<["jsonrpc" := VStr "2.0"]>
                              (list_to_map [("method", VStr "eth_requestAccounts");
                                            ("params", VRef la)]))]> h1
  ∧ sw_enable (sentWarnings (w_prov (final r))) = true
  ∧ (∀ (B : Type) (f : Provider → B),
        (∀ s q, f (set_sentWarnings s q) = f q) → f (w_prov (final r)) = f (w_prov w)).
Proof.
  destruct w as [h this web3 np]. cbn [w_heap w_prov w_promises].
  set (la := fresh (dom h)). set (h1 := <[la := Cell (KArray []) ∅]> h).
  set (lp := fresh (dom h1)).
  set (c := Cell KObject (list_to_map [("method", VStr "eth_requestAccounts");
                                       ("params", VRef la)])).
  assert (Harr : Array_isArray (<[lp := c]> h1) (VRef lp) = false).
  { cbn. by rewrite cell_at_insert_eq. }
  assert (Hj : field (<[lp := c]> h1) (VRef lp) "jsonrpc" = VUndefined).
  { rewrite field_ref, cell_at_insert_eq. subst c. cbn. by simplify_map_eq. }
  assert (Hmeth : field (<[lp := c]> h1) (VRef lp) "method" = VStr "eth_requestAccounts").
  { rewrite field_ref, cell_at_insert_eq. subst c. cbn. by simplify_map_eq. }
  unfold enable. run.
  destruct (sw_enable (sentWarnings this)) eqn:Hsw; step;
    fold la; fold h1; fold lp; fold c;
    (match goal with
     | |- context [_rpcRequest (VRef lp) ?k false ?w0] =>
         rewrite (rpcRequest_run lp k false w0 Harr (can_tag_new _ _ _ _))
     end);
    step; rewrite Hj, Hmeth; step;
    rewrite cell_at_insert_eq, insert_insert_eq; subst c; step;
    repeat split; auto; intros B f Hf; apply Hf.
Qed.

(** ** Notifications *)

(** X14.  A notification whose method is none of the three [wallet_] methods
    never changes the provider and never throws.  If its method is on the
    allow-list it is passed on, first as the deprecated [notification]
    event with the payload itself, then as a [message] event with a new
    object [{type: method, data: params}]; if not, it is dropped without a
    trace. *)
Theorem notification_forwarded_or_dropped (payload : value) (w : world) :
  payload ≠ VUndefined → payload ≠ VNull →
  let method := field (w_heap w) payload "method" in
  method ≠ VStr "wallet_accountsChanged" →
  method ≠ VStr "wallet_unlockStateChanged" →
  method ≠ VStr "wallet_chainChanged" →
  let r := on_notification payload w in
  let l := fresh (dom (w_heap w)) in
  let listed := match method with
                | VStr m => bool_decide (m ∈ EMITTED_NOTIFICATIONS)
                | _ => false
                end in
  result r = Ok tt
  ∧ w_prov (final r) = w_prov w
  ∧ (if listed
     then trace r = [AEmit "notification" [payload]; AEmit "message" [VRef l]]
          ∧ w_heap (final r) =
              <[l := Cell KObject (list_to_map
                       [("type", method);
                        ("data", field (w_heap w) payload "params")])]> (w_heap w)
     else r = Run w [] (Ok tt)).
Proof.
  intros Hu Hn method H1 H2 H3 r l listed. subst r listed.
  unfold on_notification. run. rewrite !(read_prop_field _ payload) by done. fold method.
  rewrite !strict_eq_neq by done.
  destruct method as [| | | | |m|]; step; try done.
  destruct (bool_decide (m ∈ EMITTED_NOTIFICATIONS)); step; [|done].
  rewrite !(read_prop_field _ payload) by done. step.
  repeat split.
Qed.

(** ** Invariants: what every operation keeps *)

Lemma arrays_kept_refl (h : gmap loc cell) : arrays_kept h h.
Proof. by intros l es. Qed.

Lemma arrays_kept_alloc (h : gmap loc cell) (c : cell) :
  arrays_kept h (<[fresh (dom h) := c]> h).
Proof.
  intros l es Hl. destruct (decide (l = fresh (dom h))) as [-> | Hne].
  - by rewrite cell_at_fresh in Hl.
  - by rewrite cell_at_insert_ne.
Qed.

Lemma arrays_kept_set_prop (h : gmap loc cell) (l : loc) (k : string) (x : value) :
  arrays_kept h (<[l := MkCell (cell_kind (cell_at h l)) (<[k := x]> (cell_props (cell_at h l)))
                               (cell_extensible (cell_at h l)) (cell_readonly (cell_at h l))]> h).
Proof.
  intros l' es Hl. destruct (decide (l' = l)) as [-> | Hne].
  - by rewrite cell_at_insert_eq.
  - by rewrite cell_at_insert_ne.
Qed.

Section Keeps.
Context (I : world → Prop) (Hst : stable I).

Lemma stable_heap (w : world) (h' : gmap loc cell) :
  I w → arrays_kept (w_heap w) h' → I (set_heap h' w).
Proof. intros Hw Hk. by apply Hst. Qed.

Lemma keeps_ret {A} (a : A) : keeps I (ret a).
Proof. by intros w. Qed.

Lemma keeps_throw {A} (e : error) : keeps I (throw (A := A) e).
Proof. by intros w. Qed.

Lemma keeps_tell (a : action) : keeps I (tell a).
Proof. by intros w. Qed.

Lemma keeps_get_world : keeps I get_world.
Proof. by intros w. Qed.

Lemma keeps_get_prov : keeps I get_prov.
Proof. by intros w. Qed.

Lemma keeps_get_prop (v : value) (k : string) : keeps I (get_prop v k).
Proof. by intros w. Qed.

Lemma keeps_dequal (a b : value) : keeps I (dequal a b).
Proof. intros w Hw. unfold dequal. by destruct (dequal_result _ _ _). Qed.

Lemma keeps_alloc (c : cell) : keeps I (alloc c).
Proof. intros w Hw. apply stable_heap; [done|apply arrays_kept_alloc]. Qed.

Lemma keeps_set_prop (v : value) (k : string) (x : value) : keeps I (set_prop v k x).
Proof.
  intros w Hw. unfold set_prop. destruct v; try done.
  destruct (writable _ _); [|done].
  apply stable_heap; [done|apply arrays_kept_set_prop].
Qed.

Lemma keeps_new_promise : keeps I new_promise.
Proof. intros w Hw. apply Hst; [done|apply arrays_kept_refl]. Qed.

Lemma keeps_modify_prov (g : Provider → Provider) :
  (∀ w, I w → I (set_prov (g (w_prov w)) w)) → keeps I (modify_prov g).
Proof. intros Hg w Hw. by apply Hg. Qed.

Lemma keeps_bind {A C} (m : M A) (k : A → M C) :
  keeps I m → (∀ a, keeps I (k a)) → keeps I (bind m k).
Proof.
  intros Hm Hk w Hw. unfold bind. specialize (Hm w Hw).
  destruct (m w) as [w1 t1 [a|e]]; cbn in *; [|done].
  specialize (Hk a w1 Hm). by destruct (k a w1) as [w2 t2 o].
Qed.

Lemma keeps_when (b : bool) (m : M unit) : keeps I m → keeps I (when b m).
Proof. destruct b; [done|]. intros _. apply keeps_ret. Qed.

Lemma keeps_try_noop (m : M unit) : keeps I m → keeps I (try_noop m).
Proof. intros Hm w Hw. specialize (Hm w Hw). unfold try_noop. by destruct (m w). Qed.

Lemma keeps_async (m : M promise) : keeps I m → keeps I (async m).
Proof.
  intros Hm w Hw. specialize (Hm w Hw). unfold async. by destruct (m w) as [w1 t1 [p|e]].
Qed.

Lemma keeps_or_reject (p : nat) (m : M unit) : keeps I m → keeps I (or_reject p m).
Proof.
  intros Hm w Hw. specialize (Hm w Hw). unfold or_reject.
  by destruct (m w) as [w1 t1 [u|e]].
Qed.

Lemma keeps_discard {A} (m : M A) : keeps I m → keeps I (discard m).
Proof. intros Hm. unfold discard. apply keeps_bind; [done|]. intros a. apply keeps_ret. Qed.

(** The bootstrap catches what its body throws. *)
Lemma keeps_caught (body : M unit) (msg : string) :
  keeps I body →
  keeps I (fun w => match body w with
                    | Run w1 t1 (Ok _) => Run w1 t1 (Ok tt)
                    | Run w1 t1 (Throw e) => Run w1 (t1 ++ [ALogFailure msg e]) (Ok tt)
                    end).
Proof.
  intros Hb w Hw. specialize (Hb w Hw). by destruct (body w) as [w1 t1 [u|e]].
Qed.
End Keeps.

(** Breaks a computation down to the rules above; [leaf] closes the calls
    that are known to keep the invariant and the writes to the provider. *)
Ltac keeps_with Hst leaf :=
  repeat first
    [ leaf
    | apply keeps_bind; [|intros ?]
    | apply keeps_ret | apply keeps_throw | apply keeps_tell
    | apply keeps_get_world | apply keeps_get_prov | apply keeps_get_prop
    | apply keeps_dequal
    | apply (keeps_alloc _ Hst) | apply (keeps_set_prop _ Hst)
    | apply (keeps_new_promise _ Hst)
    | apply keeps_when | apply keeps_try_noop | apply keeps_async
    | apply keeps_or_reject | apply keeps_discard
    | match goal with
      | |- keeps _ (if ?b then _ else _) => destruct b
      | |- keeps _ (match ?v with _ => _ end) => destruct v
      end ].

(** *** The provider's state stays well formed *)

Lemma dequal_at_primitive_l (d : nat) (h : gmap loc cell) (a b : value) :
  is_primitive a = true → dequal_at (S d) h a b = Some true → a = b.
Proof.
  intros Ha. cbn [dequal_at]. destruct (strict_eq a b) eqn:E.
  - intros _. by apply strict_eq_true.
  - destruct a, b; try done.
Qed.

Lemma all_equal_Forall2 (eq : value → value → option bool) (xs ys : list value) :
  length xs = length ys → all_equal eq xs ys = Some true →
  Forall2 (fun x y => eq x y = Some true) xs ys.
Proof.
  revert ys. induction xs as [|x xs IH]; intros [|y ys] Hlen Heq; try done.
  cbn [all_equal] in Heq. destruct (eq x y) as [[|]|] eqn:E; try done.
  constructor; [done|]. apply IH; [|done]. cbn in Hlen. lia.
Qed.

Lemma Forall2_rev_1 {A B} (P : A → B → Prop) (xs : list A) (ys : list B) :
  Forall2 P xs ys → Forall2 P (rev xs) (rev ys).
Proof.
  induction 1 as [|x y xs ys Hxy _ IH]; cbn [rev]; [constructor|].
  apply Forall2_app; [done|]. by repeat constructor.
Qed.

(** Two arrays that compare equal have the same first element, when the
    first one's is a primitive. *)
Lemma dequal_true_first (h : gmap loc cell) (a b : value) :
  Array_isArray h a = true → Array_isArray h b = true →
  dequal_result h a b = Some true →
  is_primitive (index h a 0) = true → index h b 0 = index h a 0.
Proof.
  unfold dequal_result, index, array_elems, Array_isArray.
  destruct a as [| | | | | |la]; try done. destruct b as [| | | | | |lb]; try done.
  destruct (cell_kind (cell_at h la)) as [|ea|] eqn:Ea; try done.
  destruct (cell_kind (cell_at h lb)) as [|eb|] eqn:Eb; try done.
  intros _ _. cbn [dequal_at]. destruct (strict_eq (VRef la) (VRef lb)) eqn:E.
  - apply strict_eq_true in E. injection E as ->. rewrite Ea in Eb. by injection Eb as ->.
  - rewrite Ea, Eb. destruct (length ea =? length eb)%nat eqn:El; [|done].
    cbn [negb]. apply Nat.eqb_eq in El. intros Heq Hprim.
    apply all_equal_Forall2 in Heq; [|by rewrite !length_rev].
    apply Forall2_rev_1 in Heq. rewrite !rev_involutive in Heq.
    destruct Heq as [|x y xs ys Hxy _]; [done|]. cbn in *.
    destruct stack_limit as [|d]; [done|].
    symmetry. by eapply dequal_at_primitive_l.
Qed.

Lemma index_kept (h h' : gmap loc cell) (a : value) (i : nat) :
  arrays_kept h h' → Array_isArray h a = true → index h' a i = index h a i.
Proof.
  intros Hk. unfold Array_isArray, index, array_elems. destruct a; try done.
  destruct (cell_kind (cell_at h l)) eqn:E; try done.
  by rewrite (Hk _ _ E).
Qed.

Lemma Array_isArray_kept (h h' : gmap loc cell) (a : value) :
  arrays_kept h h' → Array_isArray h a = true → Array_isArray h' a = true.
Proof.
  intros Hk. unfold Array_isArray. destruct a; try done.
  destruct (cell_kind (cell_at h l)) eqn:E; try done.
  by rewrite (Hk _ _ E).
Qed.

Lemma selected_derived_kept (h h' : gmap loc cell) (p : Provider) :
  arrays_kept h h' → accounts_ok h p → selected_derived h p → selected_derived h' p.
Proof.
  intros Hk Ha Hd. unfold selected_derived, accounts_ok in *.
  destruct (state_accounts p) eqn:Eacc; try done; destruct Ha as [Ha | Ha]; try done.
  by rewrite (index_kept h h').
Qed.

Lemma accounts_ok_kept (h h' : gmap loc cell) (p : Provider) :
  arrays_kept h h' → accounts_ok h p → accounts_ok h' p.
Proof.
  intros Hk [Ha | Ha]; [by left|right]. by eapply Array_isArray_kept.
Qed.

Lemma provider_ok_stable : stable provider_ok.
Proof.
  intros [h p web3 np] h' n (Hc & Ha & Hs & Hd) Hk. cbn in *.
  repeat split; cbn; try done.
  - by eapply accounts_ok_kept.
  - by eapply selected_derived_kept.
Qed.

Lemma arrays_kept_applied (h : gmap loc cell) (accounts : value) :
  arrays_kept h (applied_heap h accounts).
Proof.
  unfold applied_heap. destruct (Array_isArray h accounts).
  - apply arrays_kept_refl.
  - apply arrays_kept_alloc.
Qed.

Lemma selected_derived_array (h : gmap loc cell) (p : Provider) :
  Array_isArray h (state_accounts p) = true →
  (is_primitive (index h (state_accounts p) 0) = true →
   selectedAddress p = js_or (index h (state_accounts p) 0) VNull) →
  selected_derived h p.
Proof.
  unfold selected_derived. by destruct (state_accounts p).
Qed.

Lemma dequal_null_array (h : gmap loc cell) (b : value) :
  Array_isArray h b = true → dequal_result h VNull b ≠ Some true.
Proof. unfold Array_isArray, dequal_result. by destruct b. Qed.

Lemma handleAccountsChanged_keeps (accounts : value) (isEthAccounts isInternal : bool) :
  keeps provider_ok (_handleAccountsChanged accounts isEthAccounts isInternal).
Proof.
  intros [h p web3 np] (Hc & Ha & Hs & Hd). rewrite handleAccountsChanged_run.
  cbv zeta. cbn [w_heap w_prov w_legacy_web3] in *.
  pose proof (arrays_kept_applied h accounts) as Hk.
  pose proof (applied_is_array h accounts) as HB.
  set (h1 := applied_heap h accounts) in *.
  set (B := applied_accounts h accounts) in *.
  pose proof (select_first p (index h1 B 0) Hs) as Hsel.
  pose proof (accounts_ok_kept _ _ _ Hk Ha) as Ha1.
  pose proof (selected_derived_kept _ _ _ Hk Ha Hd) as Hd1.
  destruct (dequal_result h1 (state_accounts p) B) as [[|]|] eqn:Hsame;
    cbn [final set_prov set_heap].
  - assert (HA : Array_isArray h1 (state_accounts p) = true).
    { destruct Ha1 as [Ha1 | Ha1]; [|done]. rewrite Ha1 in Hsame.
      by apply dequal_null_array in Hsame. }
    destruct (strict_eq (selectedAddress p) (index h1 B 0)) eqn:Est.
    + by repeat split.
    + clear Hsel. repeat split; cbn; try done; [apply js_or_null_ok|].
      apply selected_derived_array; cbn; [done|]. intros Hp.
      by rewrite (dequal_true_first h1 (state_accounts p) B).
  - destruct (strict_eq (selectedAddress p) (index h1 B 0)) eqn:Est.
    + repeat split; cbn; try done; [by right|].
      apply selected_derived_array; cbn; [done|]. intros _. exact Hsel.
    + repeat split; cbn; try done; [by right|apply js_or_null_ok|].
      by apply selected_derived_array.
  - by repeat split.
Qed.

Lemma handleChainChanged_keeps (networkInfo : value) :
  keeps provider_ok (_handleChainChanged networkInfo).
Proof.
  pose proof provider_ok_stable as Hst.
  unfold _handleChainChanged, new_object.
  apply keeps_bind; [keeps_with Hst fail|intros info].
  apply keeps_bind; [apply keeps_get_prop|intros c].
  apply keeps_bind; [apply keeps_get_prop|intros n].
  apply keeps_bind; [apply keeps_get_world|intros w0].
  destruct (negb (typeof (w_heap w0) c =? "string")
            || negb match c with VStr s => startsWith s "0x" | _ => false end
            || negb (typeof (w_heap w0) n =? "string")) eqn:E.
  - keeps_with Hst fail.
  - apply orb_false_elim in E as [E En]. apply orb_false_elim in E as [_ Ec].
    apply negb_false_iff in Ec, En.
    destruct c as [| | | | |s|]; try done.
    assert (∃ t, n = VStr t) as [t ->].
    { destruct n; try done; [by eexists|].
      cbn in En. by destruct (cell_kind (cell_at (w_heap w0) l)). }
    intros [h p web3 np] (Hc & Ha & Hs & Hd). run.
    destruct (negb (strict_eq (VStr s) (chainId p))
              || negb (strict_eq (VStr t) (networkVersion p))); step.
    + repeat split; cbn; try done. right. by exists s, t.
    + done.
Qed.

(** What every call keeps, given that the two state handlers and the writes
    to [isConnected], [isUnlocked] and [sentWarnings] do. *)
Section KeepsCalls.
Context (I : world → Prop) (Hst : stable I).
Context (HA : ∀ accounts isEthAccounts isInternal,
            keeps I (_handleAccountsChanged accounts isEthAccounts isInternal)).
Context (HC : ∀ networkInfo, keeps I (_handleChainChanged networkInfo)).
Context (Hconn : ∀ v w, I w → I (set_prov (set_isConnected v (w_prov w)) w)).
Context (Hunl : ∀ b w, I w → I (set_prov (set_isUnlocked b (w_prov w)) w)).
Context (Hwarn : ∀ s w, I w → flags_le (sentWarnings (w_prov w)) s →
                        I (set_prov (set_sentWarnings s (w_prov w)) w)).

Ltac leaf :=
  first [ apply HA | apply HC
        | apply keeps_modify_prov; intros ? ?;
          first [ by apply Hconn | by apply Hunl
                | apply Hwarn; [done|by repeat split] ] ].

Lemma rpcRequest_keeps (payload : value) (callback : callback) (isInternal : bool) :
  keeps I (_rpcRequest payload callback isInternal).
Proof. unfold _rpcRequest, handle. keeps_with Hst leaf. Qed.

Lemma invoke_keeps (cb : callback) (err res : value) : keeps I (invoke cb err res).
Proof.
  induction cb as [f| |p u|payload isInternal callback IH]; cbn [invoke].
  - keeps_with Hst leaf.
  - apply keeps_ret.
  - apply keeps_tell.
  - unfold new_array.
    apply keeps_bind; [apply keeps_get_prop|intros r].
    apply keeps_bind; [keeps_with Hst leaf|intros accounts].
    apply keeps_bind; [apply keeps_get_prop|intros method].
    apply keeps_bind; [apply HA|intros _]. exact IH.
Qed.

Lemma handleUnlockStateChanged_keeps (isUnlocked : value) :
  keeps I (_handleUnlockStateChanged isUnlocked).
Proof.
  unfold _handleUnlockStateChanged, new_array, new_object.
  destruct isUnlocked; try apply keeps_tell.
  apply keeps_bind; [apply keeps_get_prov|intros this].
  apply keeps_when. apply keeps_bind; [leaf|intros _].
  destruct b.
  - apply keeps_try_noop.
    apply keeps_bind; [apply (keeps_alloc _ Hst)|intros params].
    apply keeps_bind; [apply (keeps_alloc _ Hst)|intros payload].
    apply rpcRequest_keeps.
  - apply keeps_bind; [apply (keeps_alloc _ Hst)|intros empty]. apply HA.
Qed.

Lemma run_call_keeps (c : call) : keeps I (run_call c).
Proof.
  destruct c; cbn [run_call].
  - apply keeps_discard. unfold request, new_object.
    keeps_with Hst ltac:(first [apply rpcRequest_keeps | leaf]).
  - apply rpcRequest_keeps.
  - apply keeps_discard. unfold send, _sendSync, warn_once, new_object, new_array.
    keeps_with Hst ltac:(first [apply rpcRequest_keeps | leaf]).
  - apply keeps_discard. unfold enable, warn_once, new_object, new_array.
    keeps_with Hst ltac:(first [apply rpcRequest_keeps | leaf]).
  - apply keeps_discard. unfold isConnected, warn_once.
    keeps_with Hst leaf.
  - apply keeps_discard. unfold requestBatch.
    keeps_with Hst ltac:(first [apply rpcRequest_keeps | leaf]).
  - apply keeps_discard. unfold isEnabled. keeps_with Hst leaf.
  - unfold on_notification, emit, new_object.
    keeps_with Hst ltac:(first [apply handleUnlockStateChanged_keeps | leaf]).
  - unfold on_provider_state. apply keeps_caught.
    unfold emit, new_object.
    keeps_with Hst ltac:(first [apply handleUnlockStateChanged_keeps | leaf]).
  - unfold _handleDisconnect, logStreamDisconnectWarning, emit, new_object.
    keeps_with Hst leaf.
  - apply invoke_keeps.
Qed.

Lemma run_calls_keeps (cs : list call) (w : world) : I w → I (run_calls cs w).1.
Proof.
  revert w. induction cs as [|c cs IH]; intros w Hw; [done|].
  cbn [run_calls]. specialize (IH _ (run_call_keeps c w Hw)).
  by destruct (run_calls cs (final (run_call c w))).
Qed.
End KeepsCalls.

Lemma provider_ok_initial (h : gmap loc cell) (web3 : bool) :
  provider_ok (initial_world h web3).
Proof. split; [by left|]. split; [by left|]. split; [by left|done]. Qed.

Lemma run_calls_ok (cs : list call) (w : world) :
  provider_ok w → provider_ok (run_calls cs w).1.
Proof.
  apply run_calls_keeps.
  - apply provider_ok_stable.
  - apply handleAccountsChanged_keeps.
  - apply handleChainChanged_keeps.
  - by intros v w0 H.
  - by intros b w0 H.
  - by intros s w0 H _.
Qed.

Lemma flags_le_refl (s : SentWarnings) : flags_le s s.
Proof. by repeat split. Qed.

Lemma flags_le_trans (s1 s2 s3 : SentWarnings) :
  flags_le s1 s2 → flags_le s2 s3 → flags_le s1 s3.
Proof. intros (?&?&?) (?&?&?). repeat split; auto. Qed.

Lemma run_calls_flags (cs : list call) (s : SentWarnings) (w : world) :
  flags_le s (sentWarnings (w_prov w)) →
  flags_le s (sentWarnings (w_prov (run_calls cs w).1)).
Proof.
  apply (run_calls_keeps (fun w => flags_le s (sentWarnings (w_prov w)))).
  - by intros w0 h' n H _.
  - intros a e i w0 H.
    assert (Hp : preserves sentWarnings (_handleAccountsChanged a e i))
      by (unfold _handleAccountsChanged, new_array; frame).
    by rewrite (Hp w0).
  - intros n w0 H.
    assert (Hp : preserves sentWarnings (_handleChainChanged n))
      by (unfold _handleChainChanged, new_object; frame).
    by rewrite (Hp w0).
  - by intros v w0 H.
  - by intros b w0 H.
  - intros s' w0 H H'. cbn. by eapply flags_le_trans.
Qed.

(** X15.  Whatever sequence of calls, notifications, startup states, stream
    failures and engine answers a new provider goes through, its state
    stays well formed: [chainId] and [networkVersion] are both [null] or
    both strings, the former starting with [0x]; the stored accounts are
    [null] or an array; [selectedAddress] is [null] or truthy, [null] while
    no accounts are stored, and [accounts[0] || null] when the first
    account is a primitive.  The sequence consists of the provider's own
    operations: the account arrays it was handed, and hands on with
    [accountsChanged], are not written to by consumers in between. *)
Theorem provider_state_well_formed (cs : list call) (h : gmap loc cell) (web3 : bool) :
  provider_ok (run_calls cs (initial_world h web3)).1.
Proof. apply run_calls_ok, provider_ok_initial. Qed.


(** X17.  No operation ever resets a deprecation flag: whatever happens to
    the provider, a warning that has been printed is never printed again
    for want of its flag. *)
Theorem sent_warnings_never_reset (cs : list call) (w : world) :
  flags_le (sentWarnings (w_prov w)) (sentWarnings (w_prov (run_calls cs w).1)).
Proof. apply run_calls_flags, flags_le_refl. Qed.

(** ** What an operation can emit *)

Section Emits.
Context (P : action → bool).

Lemma emits_ret {A} (a : A) : emits_only P (ret a).
Proof. by intros w. Qed.

Lemma emits_throw {A} (e : error) : emits_only P (throw (A := A) e).
Proof. by intros w. Qed.

Lemma emits_tell (a : action) : P a = true → emits_only P (tell a).
Proof. intros Ha w. cbn. by rewrite Ha. Qed.

Lemma emits_get_world : emits_only P get_world.
Proof. by intros w. Qed.

Lemma emits_get_prov : emits_only P get_prov.
Proof. by intros w. Qed.

Lemma emits_get_prop (v : value) (k : string) : emits_only P (get_prop v k).
Proof. intros w. unfold get_prop. by destruct (read_prop _ _ _). Qed.

Lemma emits_dequal (a b : value) : emits_only P (dequal a b).
Proof. intros w. unfold dequal. by destruct (dequal_result _ _ _). Qed.

Lemma emits_alloc (c : cell) : emits_only P (alloc c).
Proof. by intros w. Qed.

Lemma emits_set_prop (v : value) (k : string) (x : value) : emits_only P (set_prop v k x).
Proof. intros w. unfold set_prop. destruct v; try done. by destruct (writable _ _). Qed.

Lemma emits_new_promise : emits_only P new_promise.
Proof. by intros w. Qed.

Lemma emits_modify_prov (g : Provider → Provider) : emits_only P (modify_prov g).
Proof. by intros w. Qed.

Lemma emits_bind {A C} (m : M A) (k : A → M C) :
  emits_only P m → (∀ a, emits_only P (k a)) → emits_only P (bind m k).
Proof.
  intros Hm Hk w. unfold bind. specialize (Hm w).
  destruct (m w) as [w1 t1 [a|e]]; cbn in *; [|done].
  specialize (Hk a w1). destruct (k a w1) as [w2 t2 o]. cbn in *.
  rewrite forallb_app, Hm, Hk. done.
Qed.

Lemma emits_when (b : bool) (m : M unit) : emits_only P m → emits_only P (when b m).
Proof. destruct b; [done|]. intros _. apply emits_ret. Qed.

Lemma emits_try_noop (m : M unit) : emits_only P m → emits_only P (try_noop m).
Proof. intros Hm w. specialize (Hm w). unfold try_noop. by destruct (m w). Qed.

Lemma emits_async (m : M promise) : emits_only P m → emits_only P (async m).
Proof. intros Hm w. specialize (Hm w). unfold async. by destruct (m w) as [w1 t1 [p|e]]. Qed.

Lemma emits_or_reject (p : nat) (m : M unit) :
  (∀ e, P (AReject p e) = true) → emits_only P m → emits_only P (or_reject p m).
Proof.
  intros HP Hm w. specialize (Hm w). unfold or_reject.
  destruct (m w) as [w1 t1 [u|e]]; cbn in *; [done|].
  rewrite forallb_app, Hm. cbn. by rewrite HP.
Qed.
End Emits.

Ltac emits :=
  repeat first
    [ apply emits_bind; [|intros ?]
    | apply emits_ret | apply emits_throw
    | apply emits_tell; reflexivity
    | apply emits_get_world | apply emits_get_prov | apply emits_get_prop
    | apply emits_dequal | apply emits_alloc | apply emits_set_prop
    | apply emits_new_promise | apply emits_modify_prov
    | apply emits_when | apply emits_try_noop | apply emits_async
    | apply emits_or_reject; [reflexivity|]
    | match goal with
      | |- emits_only _ (if ?b then _ else _) => destruct b
      | |- emits_only _ (match ?v with _ => _ end) => destruct v
      end ].

(** X18.  The handlers of the wallet's state (accounts, chain, disconnect)
    only log and emit events: none of them sends a request to the RPC
    engine, calls a consumer's callback or settles a promise. *)
Theorem state_handlers_stay_inside :
  (∀ accounts isEthAccounts isInternal,
     emits_only stays_inside (_handleAccountsChanged accounts isEthAccounts isInternal))
  ∧ (∀ networkInfo, emits_only stays_inside (_handleChainChanged networkInfo))
  ∧ (∀ streamName err, emits_only stays_inside (_handleDisconnect streamName err)).
Proof.
  repeat split; intros.
  - unfold _handleAccountsChanged, emit, new_array. emits.
  - unfold _handleChainChanged, emit, new_object. emits.
  - unfold _handleDisconnect, logStreamDisconnectWarning, emit, new_object. emits.
Qed.

Lemma bind_run {A C} (m : M A) (k : A → M C) (w : world) :
  bind m k w = match m w with
               | Run w1 t1 (Ok a) =>
                   match k a w1 with Run w2 t2 o => Run w2 (t1 ++ t2) o end
               | Run w1 t1 (Throw e) => Run w1 t1 (Throw e)
               end.
Proof. reflexivity. Qed.

Lemma warn_once_run (sent : SentWarnings → bool) (mark : SentWarnings → SentWarnings)
      (msg : string) (w : world) :
  warn_once sent mark msg w =
  if sent (sentWarnings (w_prov w)) then Run w [] (Ok tt)
  else Run (set_prov (set_sentWarnings (mark (sentWarnings (w_prov w))) (w_prov w)) w)
           [ALogWarn msg] (Ok tt).
Proof. unfold warn_once. run. by destruct (sent (sentWarnings (w_prov w))). Qed.

(** X19.  [send], in each of its three forms and whether it returns or
    throws, prints its deprecation warning first and only if it has not
    been printed before, sets the flag, and prints no other warning. *)
Theorem send_warns_once (methodOrPayload callbackOrArgs : value) (w : world) :
  let r := send methodOrPayload callbackOrArgs w in
  ∃ t, trace r = ((if sw_send (sentWarnings (w_prov w)) then []
                   else [ALogWarn (warnings_sendDeprecation messages)]) ++ t)%list
       ∧ forallb not_a_warning t = true
       ∧ sw_send (sentWarnings (w_prov (final r))) = true.
Proof.
  intros r. subst r. unfold send.
  match goal with |- context [bind (warn_once ?s ?m ?msg) ?k] =>
    set (rest := k);
    assert (Hq : emits_only not_a_warning (rest tt));
    [|assert (Hp : preserves sentWarnings (rest tt))]
  end.
  { subst rest. cbv beta. unfold _rpcRequest, _sendSync, handle, new_object, new_array.
    emits. }
  { subst rest. cbv beta. unfold new_object, new_array. frame. }
  rewrite bind_run, warn_once_run.
  destruct (sw_send (sentWarnings (w_prov w))) eqn:Hs.
  - specialize (Hq w). specialize (Hp w). destruct (rest tt w) as [w2 t2 o].
    cbn in *. exists t2. by rewrite Hp.
  - match goal with |- context [rest tt ?w1] =>
      specialize (Hq w1); specialize (Hp w1); destruct (rest tt w1) as [w2 t2 o]
    end.
    cbn in *. exists t2. by rewrite Hp.
Qed.

(** ** The bootstrap *)

Lemma preserves_when_false {A} (f : Provider → A) (b : bool) (m : M unit) :
  b = false → preserves f (when b m).
Proof. intros ->. apply preserves_ret. Qed.

(** As [frame], for the connection flag: only the emission of [connect]
    sets it. *)
Ltac frame_connected :=
  repeat first
    [ apply preserves_when_false; reflexivity
    | apply preserves_bind; [|intros ?]
    | apply preserves_ret | apply preserves_throw | apply preserves_tell
    | apply preserves_get_world | apply preserves_get_prov | apply preserves_alloc
    | apply preserves_get_prop | apply preserves_set_prop | apply preserves_new_promise
    | apply preserves_dequal | apply preserves_when | apply preserves_try_noop
    | apply preserves_modify_prov; [intros ?; reflexivity]
    | match goal with
      | |- preserves _ (if ?b then _ else _) => destruct b
      | |- preserves _ (match ?v with _ => _ end) => destruct v
      end ].

Lemma emissions_app (name : string) (t1 t2 : list action) :
  emissions name (t1 ++ t2) = (emissions name t1 ++ emissions name t2)%list.
Proof. unfold emissions. apply omap_app. Qed.

Lemma not_connect_emissions (t : list action) :
  forallb not_connect t = true → emissions "connect" t = [].
Proof.
  induction t as [|a t IH]; [done|]. cbn [forallb]. intros [Ha Ht]%andb_true_iff.
  specialize (IH Ht). unfold emissions in *.
  destruct a; simpl in *; try done. apply negb_true_iff in Ha. by rewrite Ha.
Qed.

Lemma connects_or_throws_bind {A} (m : M A) (k : A → M unit) :
  preserves state_isConnected m → emits_only not_connect m →
  (∀ a, connects_or_throws (k a)) → connects_or_throws (bind m k).
Proof.
  intros Hp Hq Hk w. unfold bind. specialize (Hp w). specialize (Hq w).
  apply not_connect_emissions in Hq.
  destruct (m w) as [w1 t1 [a|e]]; cbn [final trace] in *; [|done].
  specialize (Hk a w1). destruct (k a w1) as [w2 t2 [u|e]].
  - destruct Hk as (t0 & info & -> & Ht0 & Hc & Hf).
    exists (t1 ++ t0)%list, info. rewrite emissions_app, Hq, Ht0, app_assoc. done.
  - destruct Hk as (Ht2 & Hc). rewrite emissions_app, Hq, Ht2. split; [done|congruence].
Qed.

Lemma connect_emitted :
  connects_or_throws
    (this <- get_prov ;;
     connectInfo <- new_object [("chainId", chainId this)] ;;
     emit "connect" [connectInfo]).
Proof.
  intros [h p web3 np]. unfold new_object. run.
  exists [], (fresh (dom h)). repeat split.
  unfold field. cbn. unfold cell_at. rewrite lookup_insert_eq. cbn.
  by rewrite lookup_insert_eq.
Qed.

(** X20.  The bootstrap never throws.  Either it ends by emitting [connect],
    once, with an object holding the provider's [chainId], and the provider
    is connected from then on; or it logs the failure, having emitted no
    [connect] and left the connection flag as it was. *)
Theorem bootstrap_connects_or_logs (state : value) (w : world) :
  let r := on_provider_state state w in
  result r = Ok tt
  ∧ ((∃ t info,
        trace r = (t ++ [AEmit "connect" [VRef info]])%list
        ∧ emissions "connect" t = []
        ∧ state_isConnected (w_prov (final r)) = Some true
        ∧ field (w_heap (final r)) (VRef info) "chainId" = chainId (w_prov (final r)))
     ∨ (∃ t e,
          trace r = (t ++ [ALogFailure initial_state_failure_msg e])%list
          ∧ emissions "connect" t = []
          ∧ state_isConnected (w_prov (final r)) = state_isConnected (w_prov w))).
Proof.
  intros r. subst r. unfold on_provider_state.
  match goal with |- context [match ?b w with _ => _ end] =>
    assert (Hb : connects_or_throws b)
  end.
  { do 8 (apply connects_or_throws_bind;
            [ unfold _handleChainChanged, _handleAccountsChanged,
                _handleUnlockStateChanged, _rpcRequest, handle, emit, new_object,
                new_array; frame_connected
            | unfold _handleChainChanged, _handleAccountsChanged,
                _handleUnlockStateChanged, _rpcRequest, handle, emit, new_object,
                new_array; emits
            | intros ? ]).
    apply connect_emitted. }
  specialize (Hb w).
  match goal with |- context [match ?b w with _ => _ end] =>
    destruct (b w) as [w1 t1 [u|e]]
  end.
  - split; [done|left]. destruct Hb as (t0 & info & Ht & Hrest). by exists t0, info.
  - split; [done|right]. destruct Hb as (Ht & Hc). by exists t1, e.
Qed.

(** ** Deprecated events *)

(** X21.  Over any series of subscriptions ([on], [once], [addListener],
    [prependListener], [prependOnceListener]), a deprecation warning is
    printed exactly for the events subscribed to whose flag was [false],
    once each, at the first subscription; their flags are [true]
    afterwards and no other flag changes. *)
Theorem deprecated_events_warned_once (eventNames : list string)
        (events : gmap string bool) :
  let r := subscribe_all eventNames events in
  NoDup r.2
  ∧ (∀ n, n ∈ r.2 ↔ n ∈ eventNames ∧ events !! n = Some false)
  ∧ (∀ n, r.1 !! n = if bool_decide (n ∈ r.2) then Some true else events !! n).
Proof.
  cbv zeta. revert events.
  induction eventNames as [|e es IH]; intros events; cbn [subscribe_all].
  - cbn. split; [constructor|]. split.
    + intros n. split; [by intros ?%elem_of_nil|by intros [?%elem_of_nil _]].
    + intros n. by rewrite bool_decide_eq_false_2 by apply not_elem_of_nil.
  - unfold _warnOfDeprecation. case_bool_decide as He.
    + specialize (IH (<[e := true]> events)).
      destruct (subscribe_all es (<[e := true]> events)) as [events2 warned2].
      cbn in *. destruct IH as (Hnd & Hin & Hlk).
      assert (Hne : e ∉ warned2).
      { intros [_ H]%Hin. by rewrite lookup_insert_eq in H. }
      split; [by constructor|]. split.
      * intros n. rewrite elem_of_cons, Hin, elem_of_cons.
        destruct (decide (n = e)) as [-> | Hn].
        -- by intuition.
        -- rewrite lookup_insert_ne by done. by intuition.
      * intros n. rewrite Hlk. destruct (decide (n = e)) as [-> | Hn].
        -- rewrite bool_decide_eq_false_2 by done.
           rewrite bool_decide_eq_true_2 by (apply elem_of_cons; by left).
           by rewrite lookup_insert_eq.
        -- rewrite lookup_insert_ne by done.
           assert (Hiff : n ∈ warned2 ↔ n ∈ e :: warned2)
             by (rewrite elem_of_cons; intuition).
           by rewrite (bool_decide_ext _ _ Hiff).
    + specialize (IH events).
      destruct (subscribe_all es events) as [events2 warned2].
      cbn in *. destruct IH as (Hnd & Hin & Hlk).
      split; [done|]. split; [|done].
      intros n. rewrite Hin, elem_of_cons. split; [by intuition|].
      intros [[-> | Hn] Hf]; by intuition.
Qed.

(** ** Requests *)

(** X22.  A well-formed request returns a new pending promise and forwards
    one payload to the engine: a new object with the argument's [method]
    and [params] and [jsonrpc] set to [2.0].  The argument itself and every
    other existing object are left as they were, and so is the provider. *)
Theorem request_forwards_a_copy (args : value) (w : world) :
  well_formed_request (w_heap w) args →
  let r := request args w in
  result r = Ok (Created (w_promises w))
  ∧ w_prov (final r) = w_prov w
  ∧ (∀ l, l ∈ dom (w_heap w) → w_heap (final r) !! l = w_heap w !! l)
  ∧ (∃ l cb, (l ∉ dom (w_heap w))
            ∧ trace r = [AHandle (VRef l) cb]
            ∧ field (w_heap (final r)) (VRef l) "method" = field (w_heap w) args "method"
            ∧ field (w_heap (final r)) (VRef l) "params" = field (w_heap w) args "params"
            ∧ field (w_heap (final r)) (VRef l) "jsonrpc" = VStr "2.0").
Proof.
  intros (la & m & -> & Hkind & Hm & Hne) r. subst r.
  rewrite (request_run la m w Hkind Hm Hne). cbn [result final trace w_heap w_prov].
  pose proof (is_fresh (dom (w_heap w))) as Hfresh.
  split; [done|]. split; [done|]. split.
  - intros l Hl. rewrite lookup_insert_ne; [done|]. by intros <-.
  - eexists _, _. split; [exact Hfresh|]. split; [done|].
    rewrite Hm, !field_ref, cell_at_insert_eq. cbn [cell_props].
    repeat split; by simplify_map_eq.
Qed.

(** X23.  An argument other than [null] that is not a plain object, or
    whose [method] is not a non-empty string, is rejected with an
    Invalid-Request error carrying the argument; the message says which of
    the two checks failed.  Nothing is forwarded, logged or changed. *)
Theorem request_invalid_rejected (args : value) (w : world) :
  args ≠ VNull →
  ¬ well_formed_request (w_heap w) args →
  let plain := (typeof (w_heap w) args =? "object")%string
               && negb (Array_isArray (w_heap w) args) in
  request args w
  = Run w [] (Ok (Rejected (InvalidRequest
                              (if plain then bad_method_msg else not_an_object_msg)
                              args))).
Proof.
  intros Hnull Hbad. unfold request. run.
  destruct args as [| |b|z| |s|l]; try congruence; step; try reflexivity.
  unfold Array_isArray.
  destruct (cell_kind (cell_at (w_heap w) l)) as [|elems|] eqn:Hkind; step;
    try reflexivity.
  destruct (default VUndefined (cell_props (cell_at (w_heap w) l) !! "method"))
    as [| |b|z| |m|lm] eqn:Hm; step; try reflexivity.
  - destruct (m =? "")%string eqn:Hempty; step; [reflexivity|].
    exfalso. apply Hbad. exists l, m. repeat split; auto.
    intros ->. discriminate.
  - by destruct (cell_kind (cell_at (w_heap w) lm)).
Qed.

End MetamaskInpageProvider.

(** ** The theorems at concrete inputs *)

Ltac from_instance H := vm_compute in H |- *; exact H.

(** The validation at the parameters [{chainId: "1", networkVersion: "1"}],
    whose chain id lacks the [0x] prefix, in a new provider. *)
Lemma handleChainChanged_rejects_invalid_witness :
  let w := initial_world example_heap false in
  let r := _handleChainChanged (VRef 6%positive) w in
  VRef 6%positive ≠ VNull
  ∧ ¬ valid_network_parameters (field (w_heap w) (VRef 6%positive) "chainId")
                               (field (w_heap w) (VRef 6%positive) "networkVersion")
  ∧ result r = Ok tt
  ∧ w_prov (final r) = initial_provider
  ∧ emitted (trace r) = [].
Proof.
  intros w r.
  assert (H1 : VRef 6%positive ≠ VNull) by discriminate.
  assert (H2 : ¬ valid_network_parameters
                 (field (w_heap w) (VRef 6%positive) "chainId")
                 (field (w_heap w) (VRef 6%positive) "networkVersion")).
  { intros (c & n & Hc & _ & Hp & _). vm_compute in Hc. injection Hc as <-.
    vm_compute in Hp. discriminate. }
  destruct (handleChainChanged_rejects_invalid (VRef 6%positive) w H1 H2)
    as (Hr & Hp & _ & He & _).
  exact (conj H1 (conj H2 (conj Hr (conj Hp He)))).
Defined.

(** C2 (as amended) at the parameters [{chainId: "0x1", networkVersion: "1"}]
    applied twice to a new provider. *)
Lemma handleChainChanged_twice_witness :
  let w := initial_world example_heap false in
  let r1 := _handleChainChanged (VRef 3%positive) w in
  let r2 := _handleChainChanged (VRef 3%positive) (final r1) in
  startsWith "0x1" "0x" = true
  ∧ field (w_heap w) (VRef 3%positive) "chainId" = VStr "0x1"
  ∧ field (w_heap w) (VRef 3%positive) "networkVersion" = VStr "1"
  ∧ trace r1 = [AEmit "chainChanged" [VStr "0x1"]; AEmit "chainIdChanged" [VStr "0x1"];
                AEmit "networkChanged" [VStr "1"]]
  ∧ trace r2 = []
  ∧ chainId (w_prov (final r2)) = VStr "0x1"
  ∧ networkVersion (w_prov (final r2)) = VStr "1".
Proof.
  intros w r1 r2.
  assert (H0 : startsWith "0x1" "0x" = true) by reflexivity.
  assert (H1 : field (w_heap w) (VRef 3%positive) "chainId" = VStr "0x1")
    by (vm_compute; reflexivity).
  assert (H2 : field (w_heap w) (VRef 3%positive) "networkVersion" = VStr "1")
    by (vm_compute; reflexivity).
  destruct (handleChainChanged_twice (VRef 3%positive) (VRef 3%positive) "0x1" "1" w
              H0 H1 H2 H1 H2) as (_ & _ & Ht1 & Ht2 & _ & _ & _ & Hc & Hn).
  exact (conj H0 (conj H1 (conj H2 (conj Ht1 (conj Ht2 (conj Hc Hn)))))).
Defined.

(** C2 as stated fails when the stored pair already is the given one: after
    the parameters were applied once, applying them twice in succession
    emits [chainChanged] not once but never. *)
Lemma chainChanged_silent_for_stored_pair :
  let w := final (_handleChainChanged (VRef 3%positive) (initial_world example_heap false)) in
  let r1 := _handleChainChanged (VRef 3%positive) w in
  let r2 := _handleChainChanged (VRef 3%positive) (final r1) in
  valid_network_parameters (field (w_heap w) (VRef 3%positive) "chainId")
                           (field (w_heap w) (VRef 3%positive) "networkVersion")
  ∧ result r1 = Ok tt ∧ result r2 = Ok tt
  ∧ emitted (trace r1) = [] ∧ emitted (trace r2) = []
  ∧ length (emissions "chainChanged" (trace r1 ++ trace r2)) ≠ 1%nat.
Proof.
  intros w r1 r2. split.
  - exists "0x1", "1". vm_compute. repeat split; discriminate.
  - vm_compute. repeat split; discriminate.
Qed.

(** C9 (as amended) at a [net_version] payload, before and after the
    parameters [{chainId: "0x1", networkVersion: "1"}] are accepted. *)
Lemma sendSync_net_version_witness :
  let w := initial_world example_heap false in
  let unsynced := _sendSync example_messages (VRef 4%positive) w in
  let synced := _handleChainChanged (VRef 3%positive) w in
  let answered := _sendSync example_messages (VRef 4%positive) (final synced) in
  networkVersion (w_prov w) = VNull
  ∧ field (w_heap w) (VRef 4%positive) "method" = VStr "net_version"
  ∧ startsWith "0x1" "0x" = true
  ∧ field (w_heap w) (VRef 3%positive) "chainId" = VStr "0x1"
  ∧ field (w_heap w) (VRef 3%positive) "networkVersion" = VStr "1"
  ∧ (∃ l, result unsynced = Ok (VRef l)
          ∧ field (w_heap (final unsynced)) (VRef l) "result" = VNull)
  ∧ (∃ l, result answered = Ok (VRef l)
          ∧ field (w_heap (final answered)) (VRef l) "result" = VStr "1").
Proof.
  intros w unsynced synced answered.
  assert (H0 : networkVersion (w_prov w) = VNull) by reflexivity.
  assert (H1 : field (w_heap w) (VRef 4%positive) "method" = VStr "net_version")
    by (vm_compute; reflexivity).
  assert (H2 : startsWith "0x1" "0x" = true) by reflexivity.
  assert (H3 : field (w_heap w) (VRef 3%positive) "chainId" = VStr "0x1")
    by (vm_compute; reflexivity).
  assert (H4 : field (w_heap w) (VRef 3%positive) "networkVersion" = VStr "1")
    by (vm_compute; reflexivity).
  destruct (sendSync_net_version example_messages (VRef 4%positive) (VRef 3%positive)
              "0x1" "1" w w H0 H1 H1 H2 H3 H4) as (Hu & _ & _ & Ha).
  exact (conj H0 (conj H1 (conj H2 (conj H3 (conj H4 (conj Hu Ha)))))).
Defined.

(** C9 as stated fails for the empty network version: the parameters
    [{chainId: "0x1", networkVersion: ""}] are accepted and stored, and the
    synchronous [net_version] then answers [null], not the stored value. *)
Lemma net_version_empty_string_answers_null :
  let w := initial_world example_heap false in
  let synced := _handleChainChanged (VRef 5%positive) w in
  let answered := _sendSync example_messages (VRef 4%positive) (final synced) in
  result synced = Ok tt
  ∧ emitted (trace synced) = ["chainChanged"; "chainIdChanged"; "networkChanged"]
  ∧ networkVersion (w_prov (final synced)) = VStr ""
  ∧ ∃ l, result answered = Ok (VRef l)
         ∧ field (w_heap (final answered)) (VRef l) "result" = VNull
         ∧ field (w_heap (final answered)) (VRef l) "result"
           ≠ networkVersion (w_prov (final synced)).
Proof.
  intros w synced answered. vm_compute. repeat split.
  eexists. repeat split; discriminate.
Qed.

(** C1 (as amended) at the accounts [["0xabc"]] applied to a new provider. *)
Lemma selectedAddress_follows_accounts_witness :
  let w := initial_world example_heap false in
  let r := _handleAccountsChanged 1 (VRef 1%positive) false false w in
  selected_ok (w_prov w)
  ∧ is_Some (dequal_result 1 (applied_heap (w_heap w) (VRef 1%positive))
                           (state_accounts (w_prov w))
                           (applied_accounts (w_heap w) (VRef 1%positive)))
  ∧ result r = Ok tt
  ∧ selectedAddress (w_prov (final r)) = VStr "0xabc".
Proof.
  intros w r.
  assert (H1 : selected_ok (w_prov w)) by (left; reflexivity).
  assert (H2 : is_Some (dequal_result 1 (applied_heap (w_heap w) (VRef 1%positive))
                                      (state_accounts (w_prov w))
                                      (applied_accounts (w_heap w) (VRef 1%positive))))
    by (vm_compute; eexists; reflexivity).
  destruct (selectedAddress_follows_accounts example_messages 1 (VRef 1%positive)
              false false w H1 H2) as (Hr & Hs & _).
  refine (conj H1 (conj H2 (conj Hr _))).
  etrans; [exact Hs | vm_compute; reflexivity].
Defined.

(** C1 as stated fails when the first account is falsy: for the accounts
    [[""]] the update is applied and stored, the sequence is non-empty, and
    [selectedAddress] is [null], not its first element. *)
Lemma selectedAddress_not_first_element :
  let w := initial_world example_heap false in
  let r := _handleAccountsChanged 1 (VRef 2%positive) false false w in
  result r = Ok tt
  ∧ state_accounts (w_prov (final r)) = VRef 2%positive
  ∧ array_elems (w_heap (final r)) (state_accounts (w_prov (final r))) = [VStr ""]
  ∧ selectedAddress (w_prov (final r)) = VNull
  ∧ Some (selectedAddress (w_prov (final r)))
    ≠ array_elems (w_heap (final r)) (state_accounts (w_prov (final r))) !! 0%nat.
Proof.
  intros w r. vm_compute. repeat split; discriminate.
Qed.

(** C6 at a second array that holds the same address as the stored one. *)
Lemma accountsChanged_iff_deep_difference_witness :
  let w := example_unlocked in
  let r := _handleAccountsChanged 1 (VRef 9%positive) false false w in
  Array_isArray (w_heap w) (VRef 9%positive) = true
  ∧ state_accounts (w_prov w) ≠ VRef 9%positive
  ∧ (result r = Ok tt
     ∧ emissions "accountsChanged" (trace r) = []
     ∧ state_accounts (w_prov (final r)) = state_accounts (w_prov w)).
Proof.
  intros w r.
  assert (H1 : Array_isArray (w_heap w) (VRef 9%positive) = true)
    by (vm_compute; reflexivity).
  destruct (accountsChanged_iff_deep_difference 1 (VRef 9%positive) false false w H1)
    as (_ & H & _).
  refine (conj H1 (conj _ _)); [discriminate|].
  vm_compute in H |- *. exact H.
Defined.

(** C5 at a provider that is unlocked and knows one account. *)
Lemma lock_clears_accounts_witness :
  let w := example_unlocked in
  let r := _handleUnlockStateChanged 1 (VBool false) w in
  state_isUnlocked (w_prov w) = true
  ∧ accounts_ok (w_heap w) (w_prov w)
  ∧ selected_ok (w_prov w)
  ∧ result r = Ok tt
  ∧ array_elems (w_heap (final r)) (state_accounts (w_prov (final r))) = []
  ∧ selectedAddress (w_prov (final r)) = VNull
  ∧ emissions "accountsChanged" (trace r) = [[state_accounts (w_prov (final r))]].
Proof.
  intros w r.
  assert (H1 : state_isUnlocked (w_prov w) = true) by reflexivity.
  assert (H2 : accounts_ok (w_heap w) (w_prov w)) by (right; vm_compute; reflexivity).
  assert (H3 : selected_ok (w_prov w)) by (right; reflexivity).
  destruct (lock_clears_accounts 1 w H1 H2 H3) as (_ & Hr & _ & _ & He & Hs & Hev & _).
  refine (conj H1 (conj H2 (conj H3 (conj Hr (conj He (conj Hs _)))))).
  etrans; [exact Hev | vm_compute; reflexivity].
Defined.





(** X2 at a new, locked provider. *)
Lemma unlock_requests_accounts_witness :
  let w := initial_world example_heap2 false in
  let r := _handleUnlockStateChanged 1 (VBool true) w in
  state_isUnlocked (w_prov w) = false
  ∧ result r = Ok tt
  ∧ trace r = [AHandle (VRef 10%positive) (CbAccounts (VRef 10%positive) true CbNOOP)]
  ∧ state_isUnlocked (w_prov (final r)) = true.
Proof.
  intros w r.
  assert (H1 : state_isUnlocked (w_prov w) = false) by reflexivity.
  destruct (unlock_requests_accounts 1 w H1) as (Hr & Ht & Hp & _).
  refine (conj H1 (conj Hr (conj _ (f_equal state_isUnlocked Hp)))).
  etrans; [exact Ht | vm_compute; reflexivity].
Defined.

(** X3 at [null] in place of the accounts, in an enabled provider. *)
Lemma invalid_accounts_count_as_none_witness :
  let w := example_enabled in
  let r := _handleAccountsChanged 1 VNull false false w in
  Array_isArray (w_heap w) VNull = false
  ∧ accounts_ok (w_heap w) (w_prov w)
  ∧ selected_ok (w_prov w)
  ∧ result r = Ok tt
  ∧ selectedAddress (w_prov (final r)) = VNull
  ∧ emissions "accountsChanged" (trace r) = [[VRef 9%positive]].
Proof.
  intros w r.
  assert (H1 : Array_isArray (w_heap w) VNull = false) by reflexivity.
  assert (H2 : accounts_ok (w_heap w) (w_prov w)) by (right; vm_compute; reflexivity).
  assert (H3 : selected_ok (w_prov w)) by (right; reflexivity).
  destruct (invalid_accounts_count_as_none 1 VNull false false w H1 H2 H3)
    as (Hr & _ & _ & _ & Hs & Hev).
  refine (conj H1 (conj H2 (conj H3 (conj Hr (conj Hs _))))).
  etrans; [exact Hev | vm_compute; reflexivity].
Defined.

(** X4 at the error response to an [eth_accounts] request of an enabled
    provider. *)
Lemma failed_accounts_request_clears_accounts_witness :
  let w := example_enabled in
  let r := invoke 1 (CbAccounts (VRef 2%positive) false CbNOOP) VNull (VRef 3%positive) w in
  field (w_heap w) (VRef 2%positive) "method" = VStr "eth_accounts"
  ∧ truthy (field (w_heap w) (VRef 3%positive) "result") = false
  ∧ accounts_ok (w_heap w) (w_prov w)
  ∧ selected_ok (w_prov w)
  ∧ result r = Ok tt
  ∧ selectedAddress (w_prov (final r)) = VNull
  ∧ emissions "accountsChanged" (trace r) = [[VRef 9%positive]].
Proof.
  intros w r.
  assert (H1 : field (w_heap w) (VRef 2%positive) "method" = VStr "eth_accounts")
    by (vm_compute; reflexivity).
  assert (H2 : truthy (field (w_heap w) (VRef 3%positive) "result") = false)
    by (vm_compute; reflexivity).
  assert (H3 : accounts_ok (w_heap w) (w_prov w)) by (right; vm_compute; reflexivity).
  assert (H4 : selected_ok (w_prov w)) by (right; reflexivity).
  destruct (failed_accounts_request_clears_accounts
              1 2%positive CbNOOP false "eth_accounts" VNull (VRef 3%positive) w
              H1 ltac:(discriminate) ltac:(discriminate) H2 H3 H4)
    as (Hi & _ & _ & _).
  refine (conj H1 (conj H2 (conj H3 (conj H4 _)))).
  subst r. rewrite Hi. vm_compute. repeat split.
Defined.

(** X5 at an [eth_accounts] answer that differs from the stored accounts. *)
Lemma accounts_anomaly_logged_witness :
  let w := set_prov (set_accounts (VRef 2%positive) (w_prov example_unlocked))
                    example_unlocked in
  let r := _handleAccountsChanged 1 (VRef 1%positive) true false w in
  Array_isArray (w_heap w) (VRef 1%positive) = true
  ∧ logged_errors (trace r) = [(unexpected_accounts_msg, [VRef 1%positive])]
  ∧ state_accounts (w_prov (final r)) = VRef 1%positive
  ∧ emissions "accountsChanged" (trace r) = [[VRef 1%positive]].
Proof.
  intros w r.
  assert (H1 : Array_isArray (w_heap w) (VRef 1%positive) = true)
    by (vm_compute; reflexivity).
  pose proof (accounts_anomaly_logged 1 (VRef 1%positive) true false w H1) as H.
  refine (conj H1 _). vm_compute in H |- *. exact H.
Defined.

(** X6 at the synchronous [eth_accounts] call of an enabled provider. *)
Lemma sendSync_accounts_and_coinbase_witness :
  let w := example_enabled in
  let r := _sendSync example_messages (VRef 2%positive) w in
  selected_ok (w_prov w)
  ∧ field (w_heap w) (VRef 2%positive) "method" = VStr "eth_accounts"
  ∧ trace r = []
  ∧ w_prov (final r) = w_prov w
  ∧ ∃ l, result r = Ok (VRef l)
         ∧ field (w_heap (final r)) (VRef l) "id" = VNum 5
         ∧ array_elems (w_heap (final r)) (field (w_heap (final r)) (VRef l) "result")
           = [VStr "0xabc"].
Proof.
  intros w r.
  assert (H1 : selected_ok (w_prov w)) by (right; reflexivity).
  assert (H2 : field (w_heap w) (VRef 2%positive) "method" = VStr "eth_accounts")
    by (vm_compute; reflexivity).
  destruct (sendSync_accounts_and_coinbase example_messages (VRef 2%positive)
              "eth_accounts" w H1 H2 (or_introl eq_refl))
    as (Ht & Hp & l & Hr & Hid & _ & Hans).
  refine (conj H1 (conj H2 (conj Ht (conj Hp (ex_intro _ l (conj Hr _)))))).
  split.
  - etrans; [exact Hid | vm_compute; reflexivity].
  - destruct Hans as [_ Hel]. etrans; [exact Hel | vm_compute; reflexivity].
Defined.


(** X8 at a synchronous [eth_uninstallFilter] without [jsonrpc]. *)
Lemma sendSync_uninstallFilter_witness :
  let w := example_enabled in
  let r := _sendSync example_messages (VRef 4%positive) w in
  Array_isArray (w_heap w) (VRef 4%positive) = false
  ∧ field (w_heap w) (VRef 4%positive) "method" = VStr "eth_uninstallFilter"
  ∧ trace r = [AHandle (VRef 4%positive) CbNOOP]
  ∧ ∃ lr, result r = Ok (VRef lr)
          ∧ field (w_heap (final r)) (VRef lr) "result" = VBool true
          ∧ field (w_heap (final r)) (VRef lr) "id" = VNum 7
          ∧ field (w_heap (final r)) (VRef lr) "jsonrpc" = VStr "2.0".
Proof.
  intros w r.
  assert (H1 : Array_isArray (w_heap w) (VRef 4%positive) = false)
    by (vm_compute; reflexivity).
  assert (H2 : field (w_heap w) (VRef 4%positive) "method" = VStr "eth_uninstallFilter")
    by (vm_compute; reflexivity).
  assert (Htag : can_tag (w_heap w) 4%positive = true) by (vm_compute; reflexivity).
  pose proof (sendSync_uninstallFilter example_messages 4%positive w H1 H2) as H.
  cbv zeta in H. rewrite Htag in H.
  destruct H as (Ht & _ & lr & Hr & Hres & Hid & Hj).
  refine (conj H1 (conj H2 (conj Ht (ex_intro _ lr (conj Hr (conj Hres _)))))).
  split.
  - etrans; [exact Hid | vm_compute; reflexivity].
  - etrans; [exact Hj | vm_compute; reflexivity].
Defined.

(** X9 at a string in place of the payload. *)
Lemma rpcRequest_primitive_throws_witness :
  let w := example_enabled in
  is_primitive (VStr "eth_accounts") = true
  ∧ ∃ msg, _rpcRequest (VStr "eth_accounts") CbNOOP false w
           = Run w [] (Throw (TypeError msg))
           ∧ sendAsync (VStr "eth_accounts") (VRef 7%positive) w
             = Run w [] (Throw (TypeError msg)).
Proof.
  intros w.
  assert (H1 : is_primitive (VStr "eth_accounts") = true) by reflexivity.
  destruct (rpcRequest_primitive_throws (VStr "eth_accounts") CbNOOP false w H1)
    as (msg & Hr & Hs).
  exact (conj H1 (ex_intro _ msg (conj Hr (Hs (VRef 7%positive))))).
Defined.

(** X11 at [send("eth_chainId", {})]. *)
Lemma send_method_with_callback_throws_witness :
  let w := example_enabled in
  let r := send example_messages (VStr "eth_chainId") (VRef 7%positive) w in
  truthy (VRef 7%positive) = true
  ∧ Array_isArray (w_heap w) (VRef 7%positive) = false
  ∧ result r = Throw (JsError (errors_unsupportedSync example_messages VUndefined))
  ∧ trace r = [ALogWarn (warnings_sendDeprecation example_messages)].
Proof.
  intros w r.
  assert (H1 : truthy (VRef 7%positive) = true) by reflexivity.
  assert (H2 : Array_isArray (w_heap w) (VRef 7%positive) = false)
    by (vm_compute; reflexivity).
  destruct (send_method_with_callback_throws example_messages "eth_chainId"
              (VRef 7%positive) w H1 H2) as (Hr & Ht & _).
  exact (conj H1 (conj H2 (conj Hr Ht))).
Defined.

(** X12 at [send("eth_accounts")], without parameters. *)
Lemma send_method_returns_promise_witness :
  let w := example_enabled in
  let r := send example_messages (VStr "eth_accounts") VUndefined w in
  truthy VUndefined = false
  ∧ result r = Ok (SentPromise (Created 0))
  ∧ trace r = [ALogWarn (warnings_sendDeprecation example_messages);
               AHandle (VRef 9%positive)
                 (CbAccounts (VRef 9%positive) false (CbRpcPromise 0 false))].
Proof.
  intros w r.
  assert (H1 : truthy VUndefined = false) by reflexivity.
  destruct (send_method_returns_promise example_messages "eth_accounts" VUndefined w
              (or_introl H1)) as (Hr & Ht & _).
  refine (conj H1 (conj Hr _)).
  etrans; [exact Ht | vm_compute; reflexivity].
Defined.

(** X14 at a subscription notification that is on the allow-list. *)
Lemma notification_forwarded_or_dropped_witness :
  let w := example_enabled in
  let r := on_notification example_notifications 1 (VRef 6%positive) w in
  field (w_heap w) (VRef 6%positive) "method" = VStr "eth_subscription"
  ∧ result r = Ok tt
  ∧ w_prov (final r) = w_prov w
  ∧ trace r = [AEmit "notification" [VRef 6%positive]; AEmit "message" [VRef 9%positive]].
Proof.
  intros w r.
  assert (H1 : field (w_heap w) (VRef 6%positive) "method" = VStr "eth_subscription")
    by (vm_compute; reflexivity).
  destruct (notification_forwarded_or_dropped example_notifications 1 (VRef 6%positive) w)
    as (Hr & Hp & Ht).
  - discriminate.
  - discriminate.
  - rewrite H1. discriminate.
  - rewrite H1. discriminate.
  - rewrite H1. discriminate.
  - refine (conj H1 (conj Hr (conj Hp _))).
    vm_compute in Ht |- *. exact (proj1 Ht).
Defined.

(** X22 at the request [{method: "eth_chainId"}]. *)
Lemma request_forwards_a_copy_witness :
  let w := example_enabled in
  let r := request (VRef 8%positive) w in
  well_formed_request (w_heap w) (VRef 8%positive)
  ∧ result r = Ok (Created 0)
  ∧ w_prov (final r) = w_prov w
  ∧ w_heap (final r) !! 8%positive = w_heap w !! 8%positive.
Proof.
  intros w r.
  assert (H1 : well_formed_request (w_heap w) (VRef 8%positive)).
  { exists 8%positive, "eth_chainId". repeat split; try (vm_compute; reflexivity).
    discriminate. }
  destruct (request_forwards_a_copy (VRef 8%positive) w H1) as (Hr & Hp & Hk & _).
  refine (conj H1 (conj Hr (conj Hp (Hk 8%positive _)))).
  vm_compute. reflexivity.
Defined.

(** X23 at an array in place of the request. *)
Lemma request_invalid_rejected_witness :
  let w := example_enabled in
  VRef 1%positive ≠ VNull
  ∧ ¬ well_formed_request (w_heap w) (VRef 1%positive)
  ∧ request (VRef 1%positive) w
    = Run w [] (Ok (Rejected (InvalidRequest not_an_object_msg (VRef 1%positive)))).
Proof.
  intros w.
  assert (H1 : VRef 1%positive ≠ VNull) by discriminate.
  assert (H2 : ¬ well_formed_request (w_heap w) (VRef 1%positive)).
  { intros (l & m & Hl & Hk & _). injection Hl as <-. vm_compute in Hk. discriminate. }
  refine (conj H1 (conj H2 _)).
  etrans; [exact (request_invalid_rejected (VRef 1%positive) w H1 H2)|].
  vm_compute. reflexivity.
Defined.

(** ** The spec's scenarios, run on the example heap *)

(** Startup: the reported state is applied in the order chain, accounts,
    unlock state, the unlock triggers the internal account refresh, and
    [connect] is emitted last and marks the provider connected. *)
Example bootstrap_scenario :
  let r := on_provider_state 1 (VRef 12%positive) (initial_world example_heap false) in
  result r = Ok tt
  ∧ trace r = [AEmit "chainChanged" [VStr "0x1"];
               AEmit "chainIdChanged" [VStr "0x1"];
               AEmit "networkChanged" [VStr "1"];
               AEmit "accountsChanged" [VRef 1%positive];
               AHandle (VRef 15%positive) (CbAccounts (VRef 15%positive) true CbNOOP);
               AEmit "connect" [VRef 16%positive]]
  ∧ w_prov (final r) = w_prov example_unlocked.
Proof. vm_compute. repeat split. Qed.

(** A startup state that cannot be destructured is logged and leaves the
    provider at its defaults. *)
Example bootstrap_of_null_is_logged :
  let r := on_provider_state 1 VNull (initial_world example_heap false) in
  result r = Ok tt
  ∧ emitted (trace r) = []
  ∧ w_prov (final r) = initial_provider.
Proof. vm_compute. repeat split. Qed.

(** The backend pushes [wallet_chainChanged] with the same parameters
    twice: one [chainChanged] and one [networkChanged] are observed. *)
Example chain_notification_twice :
  let r1 := on_notification [] 1 (VRef 11%positive) (initial_world example_heap false) in
  let r2 := on_notification [] 1 (VRef 11%positive) (final r1) in
  emissions "chainChanged" (trace r1 ++ trace r2) = [[VStr "0x1"]]
  ∧ emissions "networkChanged" (trace r1 ++ trace r2) = [[VStr "1"]].
Proof. vm_compute. repeat split. Qed.

(** [request] on an array, on a string and on an object without [method]:
    rejected with an Invalid-Request error that carries the argument. *)
Example request_invalid_arguments :
  let w := initial_world example_heap false in
  request (VRef 1%positive) w
  = Run w [] (Ok (Rejected (InvalidRequest not_an_object_msg (VRef 1%positive))))
  ∧ request (VStr "eth_accounts") w
    = Run w [] (Ok (Rejected (InvalidRequest not_an_object_msg (VStr "eth_accounts"))))
  ∧ request (VRef 3%positive) w
    = Run w [] (Ok (Rejected (InvalidRequest bad_method_msg (VRef 3%positive)))).
Proof. vm_compute. repeat split. Qed.

(** Subscriptions to [close], [connect], [close] again and [networkChanged]
    on a new provider: two warnings, none for the second [close] or for
    [connect]. *)
Example deprecated_event_subscriptions :
  (subscribe_all ["close"; "connect"; "close"; "networkChanged"]
                 initial_event_warnings).2
  = ["close"; "networkChanged"].
Proof. vm_compute. reflexivity. Qed.

(** A frozen [eth_uninstallFilter] request without [jsonrpc], sent
    synchronously: the TypeError of the assignment, nothing forwarded. *)
Example frozen_uninstallFilter_throws :
  let w := initial_world example_frozen_heap false in
  _sendSync example_messages (VRef 3%positive) w
  = Run w [] (Throw (TypeError not_writable_msg)).
Proof. vm_compute. reflexivity. Qed.
